(** * The entity-to-REST mapping layer of [currentmember/common/service.py]

    A shallow embedding of [route_helper] and of the class [Entity]:
    descriptor construction, the row codec ([_convert_to_row],
    [_convert_to_dict]), the five operations with the SQL text they send
    to the cursor, and the route wrappers.

    Python objects that the code shares and mutates (the dictionaries
    handed to [Entity.__init__], among them the default arguments, which
    Python creates once when the [def] is evaluated) live in an explicit
    heap and are referred to by location.  The database connection is an
    interface ([Backend]); the statements sent through it are logged. *)

From Stdlib Require Import ZArith String List.
From Stdlib Require DecimalString.
From stdpp Require Import base option list gmap strings fin_maps.

Set Warnings "-register-all".

Open Scope string_scope.
Open Scope Z_scope.

(** ** Python values and exceptions *)

(** Exceptions the code raises, or that the operations it calls raise. *)
Inductive exn : Type :=
| KeyError (key : string)                    (* d[key], key absent *)
| IndexError                                 (* row[i], i out of range *)
| TypeError                                  (* subscripting a non-mapping, jsonify of an object *)
| AttributeError                             (* self.db is None *)
| NotFound (description : string)            (* werkzeug.exceptions.NotFound *)
| MethodNotAllowed                           (* werkzeug.exceptions.MethodNotAllowed *)
| HTTPAbort (code : Z) (description : string) (* flask.abort(code, description) *)
| DatabaseError (message : string).          (* raised by the driver *)

(** Values that travel through the layer: JSON bodies, bound parameters,
    the cells of a row, and the exception instance that [delete] returns
    as a value.  A dictionary keeps its keys in insertion order. *)
Inductive pyval : Type :=
| PNone
| PBool (b : bool)
| PInt (n : Z)
| PStr (s : string)
| PList (l : list pyval)
| PDict (d : list (string * pyval))
| PExc (e : exn).

Definition pydict : Type := list (string * pyval).

(** [d.get(k)] as an option, i.e. [k in d] together with [d[k]]. *)
Fixpoint dict_get (k : string) (d : pydict) : option pyval :=
  match d with
  | [] => None
  | (k', v) :: d' => if String.eqb k k' then Some v else dict_get k d'
  end.

(** [d[k] = v]: an existing key keeps its position, a new key goes last. *)
Fixpoint dict_set (k : string) (v : pyval) (d : pydict) : pydict :=
  match d with
  | [] => [(k, v)]
  | (k', v') :: d' =>
      if String.eqb k k' then (k', v) :: d' else (k', v') :: dict_set k v d'
  end.

(** Outcome of running a piece of Python: a value or a raised exception. *)
Inductive result (A : Type) : Type :=
| Ok (a : A)
| Raise (e : exn).
Arguments Ok {A} a.
Arguments Raise {A} e.

(** [data[key]] on a parsed JSON body. *)
Definition py_getitem (data : pyval) (key : string) : result pyval :=
  match data with
  | PDict d =>
      match dict_get key d with
      | Some v => Ok v
      | None => Raise (KeyError key)
      end
  | _ => Raise TypeError
  end.

(** Whether `jsonify` accepts the value. *)
Fixpoint serializable (v : pyval) : bool :=
  match v with
  | PList l => forallb serializable l
  | PDict d => forallb (fun kv => serializable (snd kv)) d
  | PExc _ => false
  | _ => true
  end.

(** [str(n)] for an int. *)
Definition str_int (n : Z) : string :=
  DecimalString.NilZero.string_of_int (Z.to_int n).

(** ** The heap of shared dictionaries *)

Definition ref : Type := nat.

(** Two kinds of dictionaries are handed to [Entity.__init__]: column
    name to exposed name, and column name to transform.  A location that
    was never written denotes the empty dictionary. *)
Record heap : Type := {
  name_dicts : gmap nat (gmap string string);
  fn_dicts : gmap nat (gmap string (pyval -> pyval))
}.

Definition name_dict (h : heap) (r : ref) : gmap string string :=
  default ∅ (name_dicts h !! r).

Definition fn_dict (h : heap) (r : ref) : gmap string (pyval -> pyval) :=
  default ∅ (fn_dicts h !! r).

(** [d[k] = v] on the dictionary at location [r]. *)
Definition set_name (r : ref) (k v : string) (h : heap) : heap :=
  {| name_dicts := <[r := <[k := v]> (name_dict h r)]> (name_dicts h);
     fn_dicts := fn_dicts h |}.

Definition set_fn (r : ref) (k : string) (f : pyval -> pyval) (h : heap) : heap :=
  {| name_dicts := name_dicts h;
     fn_dicts := <[r := <[k := f]> (fn_dict h r)]> (fn_dicts h) |}.

(** The default arguments `read_transforms={}`, `write_transforms={}` and
    `exposed_column_names={}` of [Entity.__init__]: three dictionaries
    created once, when the class body is evaluated. *)
Definition default_read_transforms : ref := 0%nat.
Definition default_write_transforms : ref := 1%nat.
Definition default_exposed_column_names : ref := 0%nat.

(** The heap right after the module has been imported. *)
Definition heap0 : heap :=
  {| name_dicts := {[ default_exposed_column_names := ∅ ]};
     fn_dicts := {[ default_read_transforms := ∅; default_write_transforms := ∅ ]} |}.

(** ** The descriptor *)

Inductive DB : Type := TheDB.

Record Entity : Type := {
  table : string;
  columns : list string;
  all_columns : list string;
  column_name2exposed_name : ref;
  read_transforms : ref;
  write_transforms : ref;
  db : option DB;
  allow_delete : bool;
  fields : string;
  all_fields : string
}.

(** Body of the loop `for c in self.all_columns:` of [__init__]. *)
Definition init_column (names rt wt : ref) (h : heap) (c : string) : heap :=
  let h1 := match name_dict h names !! c with
            | None => set_name names c c h
            | Some _ => h
            end in
  let h2 := match fn_dict h1 rt !! c with
            | None => set_fn rt c (fun x => x) h1
            | Some _ => h1
            end in
  match fn_dict h2 wt !! c with
  | None => set_fn wt c (fun x => x) h2
  | Some _ => h2
  end.

(** [Entity.__init__].  A dictionary argument is [None] when the caller
    omits it, and then denotes the shared default object. *)
Definition Entity_init (h : heap) (table : string) (columns read_columns : list string)
    (read_transforms write_transforms exposed_column_names : option ref)
    (allow_delete : bool) : Entity * heap :=
  let rt := default default_read_transforms read_transforms in
  let wt := default default_write_transforms write_transforms in
  let names := default default_exposed_column_names exposed_column_names in
  let all_columns := "id" :: (columns ++ read_columns) in
  let h' := foldl (init_column names rt wt) h all_columns in
  ({| table := table;
      columns := columns;
      all_columns := all_columns;
      column_name2exposed_name := names;
      read_transforms := rt;
      write_transforms := wt;
      db := None;
      allow_delete := allow_delete;
      fields := String.concat "," columns;
      all_fields := String.concat "," all_columns |}, h').

(** `entity.db = service.db`, done by the service before it serves. *)
Definition bind_db (e : Entity) : Entity :=
  {| table := table e; columns := columns e; all_columns := all_columns e;
     column_name2exposed_name := column_name2exposed_name e;
     read_transforms := read_transforms e; write_transforms := write_transforms e;
     db := Some TheDB; allow_delete := allow_delete e;
     fields := fields e; all_fields := all_fields e |}.

(** ** The error monad of plain computations *)

#[global] Instance result_ret : MRet result := fun _ a => Ok a.
#[global] Instance result_bind : MBind result := fun _ _ f m =>
  match m with
  | Ok a => f a
  | Raise e => Raise e
  end.

(** [d[k]] on a dictionary of the heap, [l[i]] on a list or tuple. *)
Definition dict_item {V : Type} (d : gmap string V) (k : string) : result V :=
  match d !! k with
  | Some v => Ok v
  | None => Raise (KeyError k)
  end.

Definition list_item {A : Type} (l : list A) (i : nat) : result A :=
  match l !! i with
  | Some x => Ok x
  | None => Raise IndexError
  end.

(** A list comprehension `[f(x) for x in l]` whose body may raise. *)
Fixpoint comprehension {A B : Type} (f : A -> result B) (l : list A) : result (list B) :=
  match l with
  | [] => Ok []
  | x :: l' => y ← f x; ys ← comprehension f l'; Ok (y :: ys)
  end.

(** A loop that threads an accumulator and may raise. *)
Fixpoint fold_result {A B : Type} (f : A -> B -> result A) (a : A) (l : list B) : result A :=
  match l with
  | [] => Ok a
  | x :: l' => a' ← f a x; fold_result f a' l'
  end.

(** ** The row codec *)

(** One element of the comprehension of [_convert_to_row]:
    `self.write_transforms[col](data[self.column_name2exposed_name[col]])`. *)
Definition convert_cell (h : heap) (e : Entity) (data : pyval) (col : string) : result pyval :=
  f ← dict_item (fn_dict h (write_transforms e)) col;
  name ← dict_item (name_dict h (column_name2exposed_name e)) col;
  v ← py_getitem data name;
  Ok (f v).

Definition _convert_to_row (h : heap) (e : Entity) (data : pyval) : result (list pyval) :=
  comprehension (convert_cell h e data) (columns e).

(** One step of the dictionary comprehension of [_convert_to_dict], for
    index [i]: the key `self.column_name2exposed_name[self.all_columns[i]]`,
    then the value `self.read_transforms[self.all_columns[i]](row[i])`. *)
Definition decode_cell (h : heap) (e : Entity) (row : list pyval) (d : pydict) (i : nat)
    : result pydict :=
  c ← list_item (all_columns e) i;
  key ← dict_item (name_dict h (column_name2exposed_name e)) c;
  f ← dict_item (fn_dict h (read_transforms e)) c;
  v ← list_item row i;
  Ok (dict_set key (f v) d).

Definition _convert_to_dict (h : heap) (e : Entity) (row : list pyval) : result pydict :=
  fold_result (decode_cell h e row) [] (seq 0 (length (all_columns e))).

(** ** The backing store and the monad of the operations *)

(** What the code uses of `DB.cursor()` and of the cursor it yields.
    Each operation acts on the connection state [C] and may raise. *)
Class Backend (C : Type) : Type := {
  be_cursor : C -> result unit * C;      (* connection.ping(reconnect=True); connection.cursor() *)
  be_execute : string -> list pyval -> C -> result unit * C;   (* cur.execute(sql, args) *)
  be_fetchone : C -> result (option (list pyval)) * C;         (* cur.fetchone() *)
  be_fetchall : C -> result (list (list pyval)) * C;           (* cur.fetchall() *)
  be_lastrowid : C -> Z                                        (* cur.lastrowid *)
}.

(** The world an operation runs in: the connection, every statement
    handed to `cur.execute` so far (text and bound values), and what
    [eprint] wrote to stderr. *)
Record io (C : Type) : Type := {
  conn : C;
  statements : list (string * list pyval);
  stderr : list exn
}.
Arguments conn {C} _.
Arguments statements {C} _.
Arguments stderr {C} _.

Definition M (C A : Type) : Type := io C -> result A * io C.

(** The `where` argument of `Entity.list`: the sentinel object
    [DEFAULT_WHERE] (the default), `None`, or an expression. *)
Inductive where_arg : Type :=
| DEFAULT_WHERE
| WhereNone
| WhereExpr (expr : string).

(** What a view function hands back to Flask: `jsonify(...)` alone is a
    200, `jsonify(...), 404` carries its code. *)
Record response : Type := { body : pyval; status_code : Z }.

#[global] Instance M_ret {C} : MRet (M C) := fun _ a s => (Ok a, s).
#[global] Instance M_bind {C} : MBind (M C) := fun _ _ f m s =>
  match m s with
  | (Ok a, s') => f a s'
  | (Raise e, s') => (Raise e, s')
  end.

Section Operations.
Context {C : Type} `{Backend C}.

Definition raise {A : Type} (e : exn) : M C A := fun s => (Raise e, s).

Definition lift {A : Type} (r : result A) : M C A := fun s => (r, s).

Definition backend {A : Type} (op : C -> result A * C) : M C A := fun s =>
  let (r, c) := op (conn s) in
  (r, {| conn := c; statements := statements s; stderr := stderr s |}).

Definition log_statement (sql : string) (args : list pyval) : M C unit := fun s =>
  (Ok tt, {| conn := conn s; statements := statements s ++ [(sql, args)];
             stderr := stderr s |}).

(** `eprint(e)` *)
Definition eprint (e : exn) : M C unit := fun s =>
  (Ok tt, {| conn := conn s; statements := statements s; stderr := stderr s ++ [e] |}).

(** `self.db.cursor()`, entering a `with` block.  Leaving the block
    closes the cursor, which changes nothing that is tracked here. *)
Definition db_cursor (e : Entity) : M C unit :=
  match db e with
  | None => raise AttributeError
  | Some TheDB => backend be_cursor
  end.

(** `cur.execute(sql, args)` *)
Definition execute (sql : string) (args : list pyval) : M C unit :=
  log_statement sql args;; backend (be_execute sql args).

Definition lastrowid : M C Z := fun s => (Ok (be_lastrowid (conn s)), s).

(** ** The operations of [Entity]

    [Entity_get] is the method `Entity.get`, and so on; `where` is
    spelled [where_]. *)

Definition Entity_get (h : heap) (e : Entity) (id : Z) : M C pyval :=
  db_cursor e;;
  execute ("SELECT " +:+ all_fields e +:+ " FROM " +:+ table e +:+ " WHERE id=%s")
          [PInt id];;
  item ← backend be_fetchone;
  match item with
  | None =>
      raise (NotFound ("No item with id '" +:+ str_int id +:+ "' in table " +:+ table e))
  | Some row => d ← lift (_convert_to_dict h e row); mret (PDict d)
  end.

Definition Entity_put (h : heap) (e : Entity) (data : pyval) (id : Z) : M C pyval :=
  db_cursor e;;
  values ← lift (_convert_to_row h e data);
  let cols := String.concat "," (map (fun col => col +:+ "=%s") (columns e)) in
  execute ("UPDATE " +:+ table e +:+ " SET " +:+ cols +:+ " WHERE id=%s")
          (values ++ [PInt id]);;
  mret PNone.

Definition Entity_post (h : heap) (e : Entity) (data : pyval) : M C pyval :=
  db_cursor e;;
  values ← lift (_convert_to_row h e data);
  let cols := String.concat "," (map (fun _ => "%s") (columns e)) in
  execute ("INSERT INTO " +:+ table e +:+ " (" +:+ fields e +:+ ") VALUES(" +:+ cols +:+ ")")
          values;;
  id ← lastrowid;
  Entity_get h e id.

Definition Entity_delete (e : Entity) (id : Z) : M C pyval :=
  if negb (allow_delete e) then mret (PExc MethodNotAllowed)
  else
    db_cursor e;;
    execute ("UPDATE " +:+ table e +:+ " SET deleted_at=CURRENT_TIMESTAMP WHERE id=%s")
            [PInt id];;
    mret PNone.

Definition Entity_list (h : heap) (e : Entity) (where_ : where_arg)
    (where_values : list pyval) : M C pyval :=
  let where_ : option string :=
    match where_ with
    | DEFAULT_WHERE => if allow_delete e then Some "deleted_at IS NULL" else None
    | WhereNone => None
    | WhereExpr w => Some w
    end in
  db_cursor e;;
  let where_ : string :=
    match where_ with
    | Some w => "WHERE " +:+ w
    | None => ""
    end in
  execute ("SELECT " +:+ all_fields e +:+ " FROM " +:+ table e +:+ " " +:+ where_)
          where_values;;
  rows ← backend be_fetchall;
  ds ← lift (comprehension (_convert_to_dict h e) rows);
  mret (PList (map PDict ds)).

(** ** The route wrapper *)

(** `jsonify(d)` raises on a value that is not JSON. *)
Definition jsonify (d : pydict) : M C pyval :=
  if serializable (PDict d) then mret (PDict d) else raise TypeError.

(** `try: m  except Exception as e: handler(e)` *)
Definition try_except {A : Type} (m : M C A) (handler : exn -> M C A) : M C A := fun s =>
  match m s with
  | (Ok a, s') => (Ok a, s')
  | (Raise e, s') => handler e s'
  end.

(** The wrapped function receives the parsed body before the arguments
    of the route when `json` is set, and the arguments alone otherwise. *)
Definition view (json : bool) (A : Type) : Type :=
  if json then pyval -> A -> M C pyval else A -> M C pyval.

Definition call_view {A : Type} (json : bool) : view json A -> pyval -> A -> M C pyval :=
  match json with
  | true => fun f data args => f data args
  | false => fun f _ args => f args
  end.

(** [route_helper f json status], applied to the parsed body of the
    request (`request.get_json()`, `None` when there is none) and to
    the arguments of the route. *)
Definition route_helper {A : Type} (json : bool) (status : string) (f : view json A)
    (request_json : pyval) (args : A) : M C response :=
  data ← (if json then
            match request_json with
            | PNone => raise (HTTPAbort 400 "missing json")
            | data => mret data
            end
          else mret PNone);
  r ← try_except
        (res ← call_view json f data args; mret (inl res))
        (fun e =>
           match e with
           | NotFound _ =>
               b ← jsonify [("status", PStr "not found")];
               mret (inr {| body := b; status_code := 404 |})
           | _ => eprint e;; raise e
           end);
  match r with
  | inr early => mret early
  | inl PNone =>
      b ← jsonify [("status", PStr status)];
      mret {| body := b; status_code := 200 |}
  | inl res =>
      b ← jsonify [("data", res); ("status", PStr status)];
      mret {| body := b; status_code := 200 |}
  end.

(** The five views that [add_routes] registers. *)
Definition get_view (h : heap) (e : Entity) : pyval -> Z -> M C response :=
  route_helper false "ok" (Entity_get h e).

Definition put_view (h : heap) (e : Entity) : pyval -> Z -> M C response :=
  route_helper true "updated" (Entity_put h e).

Definition delete_view (e : Entity) : pyval -> Z -> M C response :=
  route_helper false "deleted" (Entity_delete e).

Definition post_view (h : heap) (e : Entity) : pyval -> unit -> M C response :=
  route_helper true "created" (fun data _ => Entity_post h e data).

Definition list_view (h : heap) (e : Entity) : pyval -> unit -> M C response :=
  route_helper false "ok" (fun _ => Entity_list h e DEFAULT_WHERE []).
End Operations.

(** `Service.full_path` *)
Definition full_path (url path : string) : string :=
  "/" +:+ url +:+ (if String.eqb path "" then "" else "/" +:+ path).

(** The operations a route can be bound to. *)
Inductive operation : Type := OpGet | OpPut | OpDelete | OpPost | OpList.

Record route : Type := {
  rule : string;
  route_endpoint : string;
  methods : list string;
  bound_to : operation
}.

(** [Entity.add_routes], for a service mounted at [url]: the rules
    registered, in order. *)
Definition add_routes (e : Entity) (url endpoint : string) : list route :=
  let id_string := if String.eqb endpoint "" then "<int:id>" else "/<int:id>" in
  [ {| rule := full_path url (endpoint +:+ id_string);
       route_endpoint := endpoint +:+ ".get"; methods := ["GET"]; bound_to := OpGet |};
    {| rule := full_path url (endpoint +:+ id_string);
       route_endpoint := endpoint +:+ ".put"; methods := ["PUT"]; bound_to := OpPut |} ]
  ++ (if allow_delete e then
        [ {| rule := full_path url (endpoint +:+ id_string);
             route_endpoint := endpoint +:+ ".delete"; methods := ["DELETE"];
             bound_to := OpDelete |} ]
      else [])
  ++ [ {| rule := full_path url (endpoint +:+ "");
          route_endpoint := endpoint +:+ ".post"; methods := ["POST"]; bound_to := OpPost |};
       {| rule := full_path url (endpoint +:+ "");
          route_endpoint := endpoint +:+ ".list"; methods := ["GET"]; bound_to := OpList |} ].

(** What the client sees of a view that raised: Flask turns an HTTP
    exception into a response with its code (and [wrap_error_codes] gives
    it the body `{"status": description}`), any other exception into a
    500. *)
Definition http_status (r : result response) : Z :=
  match r with
  | Ok resp => status_code resp
  | Raise (HTTPAbort code _) => code
  | Raise (NotFound _) => 404
  | Raise MethodNotAllowed => 405
  | Raise _ => 500
  end.

(** ** A reference store

    A single table laid out as [all_columns] of one descriptor, which
    understands exactly the statements that descriptor sends.  It stands
    in for MySQL where a concrete store is needed. *)
Module Mock.
Record store : Type := {
  rows : list (list pyval);          (* the table *)
  now : Z;                           (* CURRENT_TIMESTAMP *)
  next_id : Z;                       (* AUTO_INCREMENT *)
  result_set : list (list pyval);    (* rows of the last SELECT, not yet fetched *)
  last_id : Z                        (* id of the last INSERT *)
}.

Definition with_rows (s : store) (rs : list (list pyval)) : store :=
  {| rows := rs; now := now s; next_id := next_id s;
     result_set := result_set s; last_id := last_id s |}.

Definition with_result (s : store) (rs : list (list pyval)) : store :=
  {| rows := rows s; now := now s; next_id := next_id s;
     result_set := rs; last_id := last_id s |}.

Fixpoint index_of (c : string) (l : list string) : option nat :=
  match l with
  | [] => None
  | c' :: l' => if String.eqb c c' then Some 0%nat else S <$> index_of c l'
  end.

Definition has_id (id : Z) (r : list pyval) : bool :=
  match r with
  | PInt n :: _ => Z.eqb n id
  | _ => false
  end.

Definition is_null (v : option pyval) : bool :=
  match v with
  | Some PNone => true
  | _ => false
  end.

Definition unknown_column {A : Type} : result A :=
  Raise (DatabaseError "Unknown column").

Definition execute (e : Entity) (sql : string) (args : list pyval) (s : store)
    : result unit * store :=
  let from := "SELECT " +:+ all_fields e +:+ " FROM " +:+ table e in
  if String.eqb sql (from +:+ " WHERE id=%s") then
    match args with
    | [PInt id] => (Ok tt, with_result s (filter (fun r => has_id id r) (rows s)))
    | _ => (Raise (DatabaseError "arguments"), s)
    end
  else if String.eqb sql (from +:+ " WHERE deleted_at IS NULL") then
    match index_of "deleted_at" (all_columns e) with
    | Some i => (Ok tt, with_result s (filter (fun r => is_null (r !! i)) (rows s)))
    | None => (unknown_column, s)
    end
  else if String.eqb sql (from +:+ " ") then
    (Ok tt, with_result s (rows s))
  else if String.eqb sql ("UPDATE " +:+ table e
                          +:+ " SET deleted_at=CURRENT_TIMESTAMP WHERE id=%s") then
    match args, index_of "deleted_at" (all_columns e) with
    | [PInt id], Some i =>
        (Ok tt, with_rows s (map (fun r => if has_id id r then <[i := PInt (now s)]> r else r)
                                 (rows s)))
    | [PInt id], None => (unknown_column, s)
    | _, _ => (Raise (DatabaseError "arguments"), s)
    end
  else if String.eqb sql ("UPDATE " +:+ table e +:+ " SET "
                          +:+ String.concat "," (map (fun col => col +:+ "=%s") (columns e))
                          +:+ " WHERE id=%s") then
    let n := length (columns e) in
    match drop n args with
    | [PInt id] =>
        (Ok tt, with_rows s (map (fun r => if has_id id r
                                           then (take 1 r ++ take n args ++ drop (S n) r)%list
                                           else r)
                                 (rows s)))
    | _ => (Raise (DatabaseError "arguments"), s)
    end
  else if String.eqb sql ("INSERT INTO " +:+ table e +:+ " (" +:+ fields e +:+ ") VALUES("
                          +:+ String.concat "," (map (fun _ => "%s") (columns e)) +:+ ")") then
    if Nat.eqb (length args) (length (columns e)) then
      let r := (PInt (next_id s) :: args
                ++ replicate (length (all_columns e) - S (length (columns e))) PNone)%list in
      (Ok tt, {| rows := (rows s ++ [r])%list; now := now s; next_id := next_id s + 1;
                 result_set := result_set s; last_id := next_id s |})
    else (Raise (DatabaseError "arguments"), s)
  else (Raise (DatabaseError "syntax"), s).

Definition fetchone (s : store) : result (option (list pyval)) * store :=
  match result_set s with
  | [] => (Ok None, s)
  | r :: rs => (Ok (Some r), with_result s rs)
  end.

Definition fetchall (s : store) : result (list (list pyval)) * store :=
  (Ok (result_set s), with_result s []).

Definition backend (e : Entity) : Backend store :=
  {| be_cursor := fun s => (Ok tt, with_result s []);
     be_execute := execute e;
     be_fetchone := fetchone;
     be_fetchall := fetchall;
     be_lastrowid := last_id |}.

Definition empty : store :=
  {| rows := []; now := 1000; next_id := 1; result_set := []; last_id := 0 |}.

Definition start (s : store) : io store :=
  {| conn := s; statements := []; stderr := [] |}.
End Mock.

(** ** Reading a descriptor's dictionaries

    After construction every column of [all_columns] has an entry in each
    of the three dictionaries; the accessors below read them, falling
    back on what [__init__] would have inserted. *)
Definition exposed_name (h : heap) (e : Entity) (c : string) : string :=
  default c (name_dict h (column_name2exposed_name e) !! c).

Definition read_transform (h : heap) (e : Entity) (c : string) : pyval -> pyval :=
  default (fun x => x) (fn_dict h (read_transforms e) !! c).

Definition write_transform (h : heap) (e : Entity) (c : string) : pyval -> pyval :=
  default (fun x => x) (fn_dict h (write_transforms e) !! c).

(** Every column of [l] has its three entries in heap [h]. *)
Definition filled_for (h : heap) (e : Entity) (l : list string) : bool :=
  forallb (fun c =>
             bool_decide (is_Some (name_dict h (column_name2exposed_name e) !! c))
             && bool_decide (is_Some (fn_dict h (read_transforms e) !! c))
             && bool_decide (is_Some (fn_dict h (write_transforms e) !! c)))
          l.

Definition filled (h : heap) (e : Entity) : bool := filled_for h e (all_columns e).

(** The row layout that [__init__] builds from its two column lists. *)
Definition layout (e : Entity) (read_columns : list string) : Prop :=
  all_columns e = "id" :: (columns e ++ read_columns)%list.

(** What the dictionary comprehension of [_convert_to_dict] amounts to:
    one assignment per (column, cell) pair, in order. *)
Definition decode_pairs (h : heap) (e : Entity) (pairs : list (string * pyval)) (d : pydict)
    : pydict :=
  foldl (fun d cv => dict_set (exposed_name h e cv.1) (read_transform h e cv.1 cv.2) d)
        d pairs.

(** ** Examples used below *)
Module Examples.
(** `Entity("product", ["name", "price"], ["created_at", "deleted_at"])` *)
Definition product_init : Entity * heap :=
  Entity_init heap0 "product" ["name"; "price"] ["created_at"; "deleted_at"]
              None None None true.
Definition product : Entity := bind_db product_init.1.
Definition product_heap : heap := product_init.2.

(** The same table with `allow_delete=False`, constructed next. *)
Definition archive_init : Entity * heap :=
  Entity_init product_heap "archive" ["title"] [] None None None false.
Definition archive : Entity := bind_db archive_init.1.
Definition archive_heap : heap := archive_init.2.

(** A descriptor that exposes its read-only column `b` under the name
    of its writable column `a`:
    `Entity("t", ["a"], ["b"], exposed_column_names={"b": "a"})`. *)
Definition aliased_heap0 : heap :=
  {| name_dicts := <[ 7%nat := {[ "b" := "a" ]} ]> (name_dicts heap0);
     fn_dicts := fn_dicts heap0 |}.
Definition aliased_init : Entity * heap :=
  Entity_init aliased_heap0 "t" ["a"] ["b"] None None (Some 7%nat) true.
Definition aliased : Entity := bind_db aliased_init.1.
Definition aliased_heap : heap := aliased_init.2.

(** The reference store, serving each of the descriptors above. *)
Definition product_db : Backend Mock.store := Mock.backend product.
Definition archive_db : Backend Mock.store := Mock.backend archive.

(** A table with one live and one soft-deleted product. *)
Definition shop : Mock.store :=
  {| Mock.rows := [ [PInt 1; PStr "saw"; PInt 120; PInt 10; PNone];
                    [PInt 2; PStr "drill"; PInt 900; PInt 11; PInt 50] ];
     Mock.now := 1000; Mock.next_id := 3; Mock.result_set := []; Mock.last_id := 0 |}.
End Examples.

(** ** The mail queue: [api/src/messages/message.py] and
    [api/src/dispatch_emails.py]

    [send_message] queues a message for a member; [send_messages] posts
    the queued messages to the mail service and records the outcome.
    The SQLAlchemy session is modelled by the table it reads and writes,
    the objects of a query being the rows themselves; the mail service
    and the clock are an interface ([World]), and every call to
    `requests.post` is recorded with its outcome. *)
Module Mail.

(** The columns of `Message` that the two scripts use.  [id] is `None`
    until the row has been flushed. *)
Record Message : Type := {
  id : option Z;
  subject : string;
  body : string;
  member_id : Z;
  recipient : string;
  status : string;
  template : string;
  sent_at : option Z
}.

(** Of `MessageTemplate` only `.value` is used, of the member only
    `.member_id` and `.email`. *)
Record MessageTemplate : Type := { value : string }.
Record Member : Type := { m_member_id : Z; email : string }.

Definition with_status (m : Message) (st : string) (t : option Z) : Message :=
  {| id := id m; subject := subject m; body := body m; member_id := member_id m;
     recipient := recipient m; status := st; template := template m; sent_at := t |}.

(** The session: the rows of the table, and the new objects added but
    not flushed yet. *)
Record session : Type := {
  rows : list Message;
  pending : list Message;
  next_id : Z
}.

(** `db_session.add(m)`: a new object becomes pending; an object that
    came from a query is in the session already. *)
Definition add (m : Message) (s : session) : session :=
  match id m with
  | Some _ => s
  | None => {| rows := rows s; pending := (pending s ++ [m])%list; next_id := next_id s |}
  end.

(** Flushing gives the pending objects their ids, in order. *)
Definition flush_one (acc : list Message * Z) (m : Message) : list Message * Z :=
  ((acc.1 ++ [{| id := Some acc.2; subject := subject m; body := body m;
                 member_id := member_id m; recipient := recipient m; status := status m;
                 template := template m; sent_at := sent_at m |}])%list,
   acc.2 + 1).

(** `db_session.commit()` *)
Definition commit (s : session) : session :=
  let flushed := foldl flush_one (rows s, next_id s) (pending s) in
  {| rows := flushed.1; pending := []; next_id := flushed.2 |}.

(** `message.status = st; message.sent_at = t` on the object loaded
    from row [i]. *)
Definition store (i : nat) (m : Message) (s : session) : session :=
  {| rows := <[i := m]> (rows s); pending := pending s; next_id := next_id s |}.

(** A call to `requests.post` of [send_messages], and its answer. *)
Record request : Type := {
  url : string;
  auth : string * string;
  data_from : string;
  data_to : string;
  data_subject : string;
  data_html : string
}.

(** Of the response, `.ok`, and `.content` as an f-string prints it. *)
Record response : Type := { ok : bool; content : string }.

Class World (W : Type) : Type := {
  post : request -> W -> result response * W;   (* requests.post(url, auth=.., data=..) *)
  utcnow : W -> Z * W                           (* datetime.utcnow() *)
}.

Inductive log_entry : Type :=
| Info (msg : string)      (* logger.info *)
| Error (msg : string).    (* logger.error *)

Record state (W : Type) : Type := {
  db_session : session;
  world : W;
  posted : list (request * result response);
  log : list log_entry
}.
Arguments db_session {W} _.
Arguments world {W} _.
Arguments posted {W} _.
Arguments log {W} _.

(** `f"{message.id}"` *)
Definition str_id (i : option Z) : string :=
  match i with
  | Some n => str_int n
  | None => "None"
  end.

(** `if to_override:` on a configuration value, a string or `None`. *)
Definition truthy (v : option string) : option string :=
  match v with
  | Some s => if String.eqb s "" then None else Some s
  | None => None
  end.

Section Queue.
(** `Message.QUEUED`, a constant of `messages.models`. *)
Variable QUEUED : string.

(** [send_message] of [message.py], for a template renderer
    [render_template] given its keyword arguments [kwargs]. *)
Definition send_message {K : Type} (render_template : string -> Member -> K -> result string)
    (template : MessageTemplate) (member : Member) (kwargs : K) (s : session)
    : result unit * session :=
  match render_template (value template +:+ ".subject.html") member kwargs with
  | Raise x => (Raise x, s)
  | Ok subject =>
      match render_template (value template +:+ ".body.html") member kwargs with
      | Raise x => (Raise x, s)
      | Ok body =>
          (Ok tt, add {| id := None; subject := subject; body := body;
                         member_id := m_member_id member; recipient := email member;
                         status := QUEUED; template := value template;
                         sent_at := None |} s)
      end
  end.

(** `db_session.query(Message).filter(Message.status == Message.QUEUED)
    .limit(limit)`: the queued rows in table order, each with its
    position, cut at [limit].  The comparison of the status is equality
    of strings. *)
Definition query (s : session) (limit : nat) : list (nat * Message) :=
  take limit (filter (fun im => status im.2 = QUEUED) (imap pair (rows s))).

Context {W : Type} `{World W}.

(** The body of the loop of [send_messages] for the object loaded from
    row [i]. *)
Definition dispatch (key domain sender : string) (to_override : option string)
    (im : nat * Message) (st : state W) : result unit * state W :=
  let message := im.2 in
  let to := recipient message in
  let msg := "sending " +:+ str_id (id message) +:+ " to " +:+ to in
  let '(msg, to) :=
    match truthy to_override with
    | Some to_override => (msg +:+ " (overriding to " +:+ to_override +:+ ")", to_override)
    | None => (msg, to)
    end in
  let msg := msg +:+ ": " +:+ subject message in
  let log1 := (log st ++ [Info msg])%list in
  let req := {| url := "https://api.mailgun.net/v3/" +:+ domain +:+ "/messages";
                auth := ("api", key);
                data_from := sender; data_to := to;
                data_subject := subject message; data_html := body message |} in
  let '(answer, w1) := post req (world st) in
  let posted1 := (posted st ++ [(req, answer)])%list in
  match answer with
  | Raise x =>
      (Raise x, {| db_session := db_session st; world := w1; posted := posted1; log := log1 |})
  | Ok response =>
      if ok response then
        let '(now, w2) := utcnow w1 in
        let message := with_status message "sent" (Some now) in
        (Ok tt, {| db_session := commit (add message (store im.1 message (db_session st)));
                   world := w2; posted := posted1; log := log1 |})
      else
        let message := with_status message "failed" (sent_at message) in
        (Ok tt, {| db_session := commit (add message (store im.1 message (db_session st)));
                   world := w1; posted := posted1;
                   log := (log1 ++ [Error ("failed to send " +:+ str_id (id message)
                                           +:+ " to " +:+ to +:+ ": "
                                           +:+ content response)])%list |})
  end.

(** `for message in query:` *)
Fixpoint deliver (key domain sender : string) (to_override : option string)
    (loaded : list (nat * Message)) (st : state W) : result unit * state W :=
  match loaded with
  | [] => (Ok tt, st)
  | im :: loaded' =>
      match dispatch key domain sender to_override im st with
      | (Ok _, st') => deliver key domain sender to_override loaded' st'
      | (Raise x, st') => (Raise x, st')
      end
  end.

Definition send_messages (key domain sender : string) (to_override : option string)
    (limit : nat) (st : state W) : result unit * state W :=
  deliver key domain sender to_override (query (db_session st) limit) st.
End Queue.

(** The request that [dispatch] posts for a message: addressed to the
    override when one is configured, to the recipient otherwise. *)
Definition request_for (key domain sender : string) (to_override : option string)
    (m : Message) : request :=
  {| url := "https://api.mailgun.net/v3/" +:+ domain +:+ "/messages";
     auth := ("api", key);
     data_from := sender;
     data_to := default (recipient m) (truthy to_override);
     data_subject := subject m;
     data_html := body m |}.

(** What an answer of the mail service makes of a message. *)
Definition outcome (m : Message) (a : response) (m' : Message) : Prop :=
  if ok a then ∃ t, m' = with_status m "sent" (Some t)
  else m' = with_status m "failed" (sent_at m).

(** The object loaded from row [i] has been written back to the table
    [rows'] as the answer [a] commands. *)
Definition processed (rows' : list Message) (im : nat * Message) (a : response) : Prop :=
  ∃ m', rows' !! im.1 = Some m' ∧ outcome im.2 a m'.

(** A session as `session_factory()` hands it to [send_messages]:
    nothing pending, and every row of the table with its id. *)
Definition stored (s : session) : bool :=
  bool_decide (pending s = [])
  && forallb (fun m => bool_decide (is_Some (id m))) (rows s).

(** A mail service that answers from a script, and a clock that
    ticks. *)
Record scripted : Type := { answers : list (result response); clock : Z }.

Definition scripted_world : World scripted :=
  {| post := fun _ w =>
       match answers w with
       | [] => (Raise (DatabaseError "no answer"), w)
       | a :: rest => (a, {| answers := rest; clock := clock w |})
       end;
     utcnow := fun w => (clock w, {| answers := answers w; clock := clock w + 1 |}) |}.

Definition start (s : session) (w : scripted) : state scripted :=
  {| db_session := s; world := w; posted := []; log := [] |}.

(** A queue with one message sent earlier and three waiting. *)
Definition letter (i : Z) (to subj st : string) : Message :=
  {| id := Some i; subject := subj; body := "<p>" +:+ subj +:+ "</p>"; member_id := i;
     recipient := to; status := st; template := "receipt"; sent_at := None |}.

Definition queue : session :=
  {| rows := [ letter 1 "ann@example.com" "Welcome" "sent";
               letter 2 "bob@example.com" "Receipt" "queued";
               letter 3 "cat@example.com" "Reminder" "queued";
               letter 4 "dan@example.com" "Receipt" "queued" ];
     pending := []; next_id := 5 |}.

(** The service accepts the first message and refuses the second. *)
Definition accept_then_refuse : scripted :=
  {| answers := [Ok {| ok := true; content := "" |};
                 Ok {| ok := false; content := "b'no'" |}];
     clock := 77 |}.

(** The service accepts the first message and is unreachable for the
    second. *)
Definition accept_then_down : scripted :=
  {| answers := [Ok {| ok := true; content := "" |}; Raise (DatabaseError "unreachable")];
     clock := 77 |}.

(** A renderer that names the template and the member. *)
Definition render (name : string) (member : Member) (_ : unit) : result string :=
  Ok (name +:+ " for " +:+ email member).
End Mail.

(** * Properties *)

(** Closes the side conditions on locations and keys. *)
Local Ltac props :=
  solve [ done
        | intuition congruence
        | intuition (subst; solve [ eauto | congruence | tauto ]) ].

(** ** The heap under [__init__] *)

Lemma name_dict_set_name r k v h r' k' :
  name_dict (set_name r k v h) r' !! k'
  = if decide (r = r' ∧ k = k') then Some v else name_dict h r' !! k'.
Proof.
  unfold name_dict, set_name; simpl.
  destruct (decide (r = r')) as [->|Hr].
  - rewrite lookup_insert_eq; simpl.
    destruct (decide (k = k')) as [->|Hk].
    + rewrite lookup_insert_eq. by rewrite decide_True.
    + rewrite lookup_insert_ne by done. rewrite decide_False; [done | props].
  - rewrite lookup_insert_ne by done. rewrite decide_False; [done | props].
Qed.

Lemma fn_dict_set_fn r k f h r' k' :
  fn_dict (set_fn r k f h) r' !! k'
  = if decide (r = r' ∧ k = k') then Some f else fn_dict h r' !! k'.
Proof.
  unfold fn_dict, set_fn; simpl.
  destruct (decide (r = r')) as [->|Hr].
  - rewrite lookup_insert_eq; simpl.
    destruct (decide (k = k')) as [->|Hk].
    + rewrite lookup_insert_eq. by rewrite decide_True.
    + rewrite lookup_insert_ne by done. rewrite decide_False; [done | props].
  - rewrite lookup_insert_ne by done. rewrite decide_False; [done | props].
Qed.

Lemma fn_dict_set_name r k v h r' : fn_dict (set_name r k v h) r' = fn_dict h r'.
Proof. reflexivity. Qed.

Lemma name_dict_set_fn r k f h r' : name_dict (set_fn r k f h) r' = name_dict h r'.
Proof. reflexivity. Qed.

(** One round of the loop adds the entry [c ↦ c] to the name dictionary
    when [c] is absent, and changes nothing else in it. *)
Lemma name_dict_init_column names rt wt h c r k :
  name_dict (init_column names rt wt h c) r !! k
  = match name_dict h r !! k with
    | Some v => Some v
    | None => if decide (r = names ∧ k = c) then Some c else None
    end.
Proof.
  unfold init_column.
  set (h1 := match name_dict h names !! c with None => set_name names c c h | Some _ => h end).
  assert (H1 : name_dict h1 r !! k
               = match name_dict h r !! k with
                 | Some v => Some v
                 | None => if decide (r = names ∧ k = c) then Some c else None
                 end).
  { subst h1. destruct (name_dict h names !! c) as [v|] eqn:E.
    - destruct (name_dict h r !! k) eqn:E'; [done|].
      case_decide as Hd; [|done]. destruct Hd as [-> ->]. congruence.
    - rewrite name_dict_set_name. case_decide as Hd.
      + destruct Hd as [<- <-]. rewrite E. by rewrite decide_True.
      + destruct (name_dict h r !! k); [done|]. rewrite decide_False; [done|props]. }
  rewrite <- H1.
  destruct (fn_dict h1 rt !! c);
    repeat (case_match; simpl; rewrite ?name_dict_set_fn); done.
Qed.

(** It adds the identity to the transform dictionaries that lack [c]. *)
Lemma fn_dict_init_column names rt wt h c r k :
  fn_dict (init_column names rt wt h c) r !! k
  = match fn_dict h r !! k with
    | Some f => Some f
    | None => if decide ((r = rt ∨ r = wt) ∧ k = c) then Some (fun x => x) else None
    end.
Proof.
  unfold init_column.
  set (h1 := match name_dict h names !! c with None => set_name names c c h | Some _ => h end).
  assert (E1 : ∀ r', fn_dict h1 r' = fn_dict h r').
  { intros r'. subst h1. by destruct (name_dict h names !! c). }
  rewrite !E1.
  destruct (fn_dict h rt !! c) as [f|] eqn:Ert.
  - rewrite !E1. destruct (fn_dict h wt !! c) as [g|] eqn:Ewt.
    + rewrite E1. destruct (fn_dict h r !! k) eqn:E; [done|].
      case_decide as Hd; [|done]. destruct Hd as [[->| ->] ->]; congruence.
    + rewrite fn_dict_set_fn, E1. case_decide as Hd.
      * destruct Hd as [<- <-]. rewrite Ewt. rewrite decide_True; [done|props].
      * destruct (fn_dict h r !! k) eqn:E; [done|].
        case_decide as Hd'; [|done]. destruct Hd' as [[->| ->] ->]; [congruence|props].
  - rewrite !fn_dict_set_fn, !E1.
    destruct (decide (rt = wt ∧ c = c)) as [[<- _]|Hne].
    + rewrite fn_dict_set_fn, E1. case_decide as Hd.
      * destruct Hd as [<- <-]. rewrite Ert. rewrite decide_True; [done|props].
      * destruct (fn_dict h r !! k) eqn:E; [done|].
        case_decide as Hd'; [|done]. destruct Hd' as [[->| ->] ->]; props.
    + destruct (fn_dict h wt !! c) as [g|] eqn:Ewt.
      * rewrite fn_dict_set_fn, E1. case_decide as Hd.
        -- destruct Hd as [<- <-]. rewrite Ert. rewrite decide_True; [done|props].
        -- destruct (fn_dict h r !! k) eqn:E; [done|].
           case_decide as Hd'; [|done]. destruct Hd' as [[->| ->] ->]; [props|congruence].
      * rewrite !fn_dict_set_fn, E1.
        destruct (decide (wt = r ∧ c = k)) as [[<- <-]|Hw].
        -- rewrite Ewt. rewrite decide_True; [done|props].
        -- destruct (decide (rt = r ∧ c = k)) as [[<- <-]|Hr].
           ++ rewrite Ert. rewrite decide_True; [done|props].
           ++ destruct (fn_dict h r !! k) eqn:E; [done|].
              case_decide as Hd'; [|done]. destruct Hd' as [[->| ->] ->]; props.
Qed.

(** The whole loop, over the column list [l]. *)
Lemma name_dict_init_columns names rt wt l h r k :
  name_dict (foldl (init_column names rt wt) h l) r !! k
  = match name_dict h r !! k with
    | Some v => Some v
    | None => if decide (r = names ∧ k ∈ l) then Some k else None
    end.
Proof.
  revert h. induction l as [|c l IH]; intros h; simpl.
  - destruct (name_dict h r !! k); [done|]. case_decide as Hd; [|done].
    destruct Hd as [_ Hd]. by apply elem_of_nil in Hd.
  - rewrite IH, name_dict_init_column.
    destruct (name_dict h r !! k); [done|].
    destruct (decide (r = names ∧ k = c)) as [[-> ->]|Hne].
    + rewrite decide_True; [done|]. split; [done|]. apply elem_of_cons. by left.
    + case_decide as Hd.
      * rewrite decide_True; [done|]. destruct Hd as [-> Hd]. split; [done|].
        apply elem_of_cons. by right.
      * rewrite decide_False; [done|]. intros [-> Hk]. apply elem_of_cons in Hk.
        props.
Qed.

Lemma fn_dict_init_columns names rt wt l h r k :
  fn_dict (foldl (init_column names rt wt) h l) r !! k
  = match fn_dict h r !! k with
    | Some f => Some f
    | None => if decide ((r = rt ∨ r = wt) ∧ k ∈ l) then Some (fun x => x) else None
    end.
Proof.
  revert h. induction l as [|c l IH]; intros h; simpl.
  - destruct (fn_dict h r !! k); [done|]. case_decide as Hd; [|done].
    destruct Hd as [_ Hd]. by apply elem_of_nil in Hd.
  - rewrite IH, fn_dict_init_column.
    destruct (fn_dict h r !! k); [done|].
    destruct (decide ((r = rt ∨ r = wt) ∧ k = c)) as [[Hr ->]|Hne].
    + rewrite decide_True; [done|]. split; [done|]. apply elem_of_cons. by left.
    + case_decide as Hd.
      * rewrite decide_True; [done|]. destruct Hd as [Hr Hd]. split; [done|].
        apply elem_of_cons. by right.
      * rewrite decide_False; [done|]. intros [Hr Hk]. apply elem_of_cons in Hk.
        props.
Qed.

(** Reading [filled_for] back. *)
Lemma filled_for_spec h e l c :
  filled_for h e l = true -> c ∈ l ->
  name_dict h (column_name2exposed_name e) !! c = Some (exposed_name h e c)
  ∧ fn_dict h (read_transforms e) !! c = Some (read_transform h e c)
  ∧ fn_dict h (write_transforms e) !! c = Some (write_transform h e c).
Proof.
  unfold filled_for. rewrite forallb_forall. intros Hall Hc.
  apply list_elem_of_In in Hc. specialize (Hall c Hc).
  apply andb_prop in Hall as [Hall Hw]. apply andb_prop in Hall as [Hn Hr].
  apply bool_decide_eq_true in Hn as [n Hn], Hr as [f Hr], Hw as [g Hw].
  unfold exposed_name, read_transform, write_transform.
  by rewrite Hn, Hr, Hw.
Qed.

Lemma filled_for_app h e l1 l2 :
  filled_for h e (l1 ++ l2) = filled_for h e l1 && filled_for h e l2.
Proof. unfold filled_for. apply forallb_app. Qed.

(** [__init__] leaves a filled descriptor behind. *)
Lemma Entity_init_filled h table columns read_columns rt wt names allow :
  let '(e, h') := Entity_init h table columns read_columns rt wt names allow in
  filled h' e = true ∧ filled h' (bind_db e) = true.
Proof.
  unfold Entity_init. cbn zeta. unfold filled, filled_for. cbn [all_columns bind_db
    column_name2exposed_name read_transforms write_transforms].
  set (l := "id" :: (columns ++ read_columns)%list).
  assert (forallb
    (λ c : string,
       bool_decide (is_Some (name_dict (foldl (init_column (default default_exposed_column_names names)
            (default default_read_transforms rt) (default default_write_transforms wt)) h l)
            (default default_exposed_column_names names) !! c))
       && bool_decide (is_Some (fn_dict (foldl (init_column (default default_exposed_column_names names)
            (default default_read_transforms rt) (default default_write_transforms wt)) h l)
            (default default_read_transforms rt) !! c))
       && bool_decide (is_Some (fn_dict (foldl (init_column (default default_exposed_column_names names)
            (default default_read_transforms rt) (default default_write_transforms wt)) h l)
            (default default_write_transforms wt) !! c))) l = true); [|done].
  apply forallb_forall. intros c Hc. apply list_elem_of_In in Hc.
  rewrite name_dict_init_columns, !fn_dict_init_columns.
  rewrite !andb_true_iff, !bool_decide_eq_true.
  repeat split.
  - destruct (name_dict h _ !! c); [by eexists|]. rewrite decide_True by done. by eexists.
  - destruct (fn_dict h _ !! c); [by eexists|].
    rewrite decide_True by (split; [by left|done]). by eexists.
  - destruct (fn_dict h _ !! c); [by eexists|].
    rewrite decide_True by (split; [by right|done]). by eexists.
Qed.

(** ** Construction *)

(** C8, as amended: for all arguments, construction returns a
    descriptor whose [all_columns] is "id", then the writable columns in
    their given order, then the read-only columns in theirs, and whose
    cached field lists are the comma-joined column lists.  No check on
    repeated names is made: whatever the two lists hold is kept. *)
Theorem C8_all_columns_layout h tbl cols ro rt wt names allow :
  ∃ e h', Entity_init h tbl cols ro rt wt names allow = (e, h')
    ∧ all_columns e = "id" :: (cols ++ ro)%list
    ∧ columns e = cols
    ∧ table e = tbl
    ∧ fields e = String.concat "," cols
    ∧ all_fields e = String.concat "," ("id" :: (cols ++ ro)%list).
Proof. unfold Entity_init. eexists _, _. repeat split. Qed.

(** C8, as stated, fails: a column name that is both writable and
    read-only does not make construction fail; the descriptor is built
    and lists the name twice. *)
Lemma C8_duplicate_columns_accepted :
  ¬ NoDup (["a"] ++ ["a"])%list
  ∧ ∃ e h', Entity_init heap0 "t" ["a"] ["a"] None None None true = (e, h')
      ∧ all_columns e = ["id"; "a"; "a"].
Proof.
  split.
  - intros Hnd. apply NoDup_cons in Hnd as [Hnotin _]. apply Hnotin. by left.
  - eexists _, _. split; reflexivity.
Qed.

(** Entries are only ever added. *)
Lemma Entity_init_keeps_entries h tbl cols ro rt wt names allow :
  let h' := (Entity_init h tbl cols ro rt wt names allow).2 in
  (∀ r k v, name_dict h r !! k = Some v -> name_dict h' r !! k = Some v)
  ∧ (∀ r k f, fn_dict h r !! k = Some f -> fn_dict h' r !! k = Some f).
Proof.
  unfold Entity_init; cbn [snd]. split; intros r k v Hv.
  - by rewrite name_dict_init_columns, Hv.
  - by rewrite fn_dict_init_columns, Hv.
Qed.

(** A descriptor stays filled when further descriptors are constructed,
    whatever dictionaries they share with it. *)
Lemma filled_preserved h e tbl cols ro rt wt names allow :
  filled h e = true ->
  filled (Entity_init h tbl cols ro rt wt names allow).2 e = true.
Proof.
  intros Hf.
  destruct (Entity_init_keeps_entries h tbl cols ro rt wt names allow) as [Hn Hfn].
  unfold filled, filled_for in *. rewrite forallb_forall in *. intros c Hc.
  specialize (Hf c Hc).
  apply andb_prop in Hf as [Hf Hw]. apply andb_prop in Hf as [Hname Hr].
  apply bool_decide_eq_true in Hname as [n Hname], Hr as [f Hr], Hw as [g Hw].
  rewrite !andb_true_iff, !bool_decide_eq_true.
  repeat split; eexists; [by apply Hn | by apply Hfn | by apply Hfn].
Qed.

(** C10: construction writes into the dictionaries it was given: every
    entry they held is kept, and every column of [all_columns] that a
    dictionary lacked gets its default entry there (the column's own
    name, or the identity).  When the dictionaries are the default
    arguments, a second descriptor constructed with the defaults holds
    the same three objects, and finds in them the entries that the first
    construction inserted. *)
Theorem C10_init_fills_shared_dictionaries
    h tbl1 cols1 ro1 rt wt names allow1 tbl2 cols2 ro2 allow2 :
  let '(e, h') := Entity_init h tbl1 cols1 ro1 rt wt names allow1 in
  let '(e1, h1) := Entity_init h tbl1 cols1 ro1 None None None allow1 in
  let '(e2, h2) := Entity_init h1 tbl2 cols2 ro2 None None None allow2 in
  (column_name2exposed_name e = default default_exposed_column_names names
   ∧ read_transforms e = default default_read_transforms rt
   ∧ write_transforms e = default default_write_transforms wt)
  ∧ Forall (fun c =>
       name_dict h' (column_name2exposed_name e) !! c
         = Some (default c (name_dict h (column_name2exposed_name e) !! c))
       ∧ fn_dict h' (read_transforms e) !! c
         = Some (default (fun x => x) (fn_dict h (read_transforms e) !! c))
       ∧ fn_dict h' (write_transforms e) !! c
         = Some (default (fun x => x) (fn_dict h (write_transforms e) !! c)))
     (all_columns e)
  ∧ (column_name2exposed_name e2 = column_name2exposed_name e1
     ∧ read_transforms e2 = read_transforms e1
     ∧ write_transforms e2 = write_transforms e1)
  ∧ Forall (fun c =>
       name_dict h2 (column_name2exposed_name e2) !! c
         = name_dict h1 (column_name2exposed_name e1) !! c
       ∧ fn_dict h2 (read_transforms e2) !! c = fn_dict h1 (read_transforms e1) !! c
       ∧ fn_dict h2 (write_transforms e2) !! c = fn_dict h1 (write_transforms e1) !! c
       ∧ is_Some (name_dict h2 (column_name2exposed_name e2) !! c)
       ∧ is_Some (fn_dict h2 (read_transforms e2) !! c)
       ∧ is_Some (fn_dict h2 (write_transforms e2) !! c))
     (all_columns e1).
Proof.
  unfold Entity_init. cbn zeta.
  cbn [all_columns column_name2exposed_name read_transforms write_transforms default].
  split; [done|]. split; [|split; [done|]].
  - apply Forall_forall. intros c Hc.
    rewrite name_dict_init_columns, !fn_dict_init_columns.
    repeat split.
    + destruct (name_dict h _ !! c); [done|]. by rewrite decide_True.
    + destruct (fn_dict h _ !! c); [done|]. by rewrite decide_True by (split; [by left|done]).
    + destruct (fn_dict h _ !! c); [done|]. by rewrite decide_True by (split; [by right|done]).
  - apply Forall_forall. intros c Hc.
    set (l1 := "id" :: (cols1 ++ ro1)%list) in *.
    set (h1 := foldl _ h l1).
    assert (Hn : is_Some (name_dict h1 default_exposed_column_names !! c)).
    { subst h1. rewrite name_dict_init_columns.
      destruct (name_dict h _ !! c); [by eexists|]. rewrite decide_True by done. by eexists. }
    assert (Hr : is_Some (fn_dict h1 default_read_transforms !! c)).
    { subst h1. rewrite fn_dict_init_columns.
      destruct (fn_dict h _ !! c); [by eexists|].
      rewrite decide_True by (split; [by left|done]). by eexists. }
    assert (Hw : is_Some (fn_dict h1 default_write_transforms !! c)).
    { subst h1. rewrite fn_dict_init_columns.
      destruct (fn_dict h _ !! c); [by eexists|].
      rewrite decide_True by (split; [by right|done]). by eexists. }
    rewrite name_dict_init_columns, !fn_dict_init_columns.
    destruct Hn as [n Hn], Hr as [f Hr], Hw as [g Hw].
    rewrite Hn, Hr, Hw. repeat split; by eexists.
Qed.

(** The sharing at work: `price` is a column of the first descriptor
    only, yet the second descriptor, constructed with the defaults, has
    an exposed name and transforms for it. *)
Example archive_sees_product_columns :
  ("price" ∉ all_columns Examples.archive)
  ∧ name_dict heap0 default_exposed_column_names !! "price" = None
  ∧ name_dict Examples.archive_heap (column_name2exposed_name Examples.archive) !! "price"
    = Some "price"
  ∧ is_Some (fn_dict Examples.archive_heap (read_transforms Examples.archive) !! "price")
  ∧ is_Some (fn_dict Examples.archive_heap (write_transforms Examples.archive) !! "price").
Proof.
  split; [|split; [|split; [|split]]].
  - vm_compute. intros Hin. repeat (apply elem_of_cons in Hin as [Hin|Hin]; [discriminate|]).
    by apply elem_of_nil in Hin.
  - reflexivity.
  - reflexivity.
  - vm_compute. by eexists.
  - vm_compute. by eexists.
Qed.

(** ** The row codec *)

Lemma dict_get_set k k' v d :
  dict_get k (dict_set k' v d) = if String.eqb k k' then Some v else dict_get k d.
Proof.
  induction d as [|[k0 v0] d IH]; simpl.
  - done.
  - destruct (String.eqb k' k0) eqn:E'; simpl.
    + apply String.eqb_eq in E' as ->. by destruct (String.eqb k k0).
    + destruct (String.eqb k k0) eqn:E; [|done].
      apply String.eqb_eq in E as ->. by rewrite String.eqb_sym, E'.
Qed.

Lemma decode_pairs_app h e l1 l2 d :
  decode_pairs h e (l1 ++ l2) d = decode_pairs h e l2 (decode_pairs h e l1 d).
Proof. unfold decode_pairs. apply foldl_app. Qed.

(** Pairs filed under other keys leave a key alone. *)
Lemma dict_get_decode_pairs_other h e k l d :
  Forall (fun cv => exposed_name h e cv.1 ≠ k) l ->
  dict_get k (decode_pairs h e l d) = dict_get k d.
Proof.
  intros Hl. revert d. induction Hl as [|[c v] l Hne _ IH]; intros d; simpl; [done|].
  rewrite IH, dict_get_set. simpl in Hne.
  destruct (String.eqb k (exposed_name h e c)) eqn:E; [|done].
  apply String.eqb_eq in E. congruence.
Qed.

(** The last pair filed under a key decides its value. *)
Lemma dict_get_decode_pairs_last h e l1 c v l2 d :
  Forall (fun cv => exposed_name h e cv.1 ≠ exposed_name h e c) l2 ->
  dict_get (exposed_name h e c) (decode_pairs h e (l1 ++ (c, v) :: l2) d)
  = Some (read_transform h e c v).
Proof.
  intros Hl2. rewrite decode_pairs_app. simpl.
  rewrite dict_get_decode_pairs_other by done.
  by rewrite dict_get_set, String.eqb_refl.
Qed.

(** One step of the comprehension of [_convert_to_dict] on a filled
    descriptor. *)
Lemma decode_cell_filled h e row d i c v :
  filled h e = true -> all_columns e !! i = Some c -> row !! i = Some v ->
  decode_cell h e row d i = Ok (dict_set (exposed_name h e c) (read_transform h e c v) d).
Proof.
  intros Hf Hc Hv. unfold decode_cell, list_item, dict_item.
  destruct (filled_for_spec h e (all_columns e) c Hf) as (Hn & Hr & _).
  { apply list_elem_of_lookup. eauto. }
  rewrite Hc; simpl. rewrite Hn; simpl. rewrite Hr; simpl. by rewrite Hv.
Qed.

(** The index loop over a suffix of the columns is the fold over the
    zipped suffixes. *)
Lemma fold_decode_cells h e row cs vs i d :
  filled h e = true ->
  drop i (all_columns e) = cs -> drop i row = vs -> length cs = length vs ->
  fold_result (decode_cell h e row) d (seq i (length cs))
  = Ok (decode_pairs h e (zip cs vs) d).
Proof.
  intros Hf. revert vs i d.
  induction cs as [|c cs IH]; intros vs i d Hcs Hvs Hlen; [done|].
  destruct vs as [|v vs]; [done|]. simpl in Hlen. simpl.
  assert (Hc : all_columns e !! i = Some c).
  { rewrite <- (Nat.add_0_r i), <- lookup_drop. by rewrite Hcs. }
  assert (Hv : row !! i = Some v).
  { rewrite <- (Nat.add_0_r i), <- lookup_drop. by rewrite Hvs. }
  rewrite (decode_cell_filled _ _ _ _ _ _ _ Hf Hc Hv). simpl.
  replace (S i) with (i + 1)%nat by lia.
  apply IH.
  - by rewrite <- drop_drop, Hcs.
  - by rewrite <- drop_drop, Hvs.
  - lia.
Qed.

Lemma _convert_to_dict_filled h e row :
  filled h e = true -> length row = length (all_columns e) ->
  _convert_to_dict h e row = Ok (decode_pairs h e (zip (all_columns e) row) []).
Proof.
  intros Hf Hlen. unfold _convert_to_dict.
  by apply fold_decode_cells.
Qed.

(** C6: on a row as long as [all_columns], [_convert_to_dict] succeeds
    and its record is built by going through the columns and the cells
    of the row in step: the cell is passed, as stored, to the column's
    read transform, and the outcome is filed under the column's exposed
    name.  Hence the field named after column number [i] holds the
    transform of cell number [i], unless a later column has the same
    exposed name. *)
Theorem C6_decode_zips_transforms_renames h e row :
  filled h e = true ->
  length row = length (all_columns e) ->
  ∃ d, _convert_to_dict h e row = Ok d
    ∧ d = foldl (fun d cv => dict_set (exposed_name h e cv.1) (read_transform h e cv.1 cv.2) d)
                [] (zip (all_columns e) row)
    ∧ ∀ i c v, all_columns e !! i = Some c -> row !! i = Some v ->
        name_dict h (column_name2exposed_name e) !! c = Some (exposed_name h e c)
        ∧ fn_dict h (read_transforms e) !! c = Some (read_transform h e c)
        ∧ ((∀ j c', (i < j)%nat -> all_columns e !! j = Some c' ->
              exposed_name h e c' ≠ exposed_name h e c) ->
           dict_get (exposed_name h e c) d = Some (read_transform h e c v)).
Proof.
  intros Hf Hlen. eexists. split; [by apply _convert_to_dict_filled|].
  split; [done|]. intros i c v Hc Hv.
  destruct (filled_for_spec h e (all_columns e) c Hf) as (Hn & Hr & _).
  { apply list_elem_of_lookup. eauto. }
  split; [done|]. split; [done|]. intros Hlater.
  rewrite <- (take_drop_middle _ _ _ Hc) at 1.
  rewrite <- (take_drop_middle _ _ _ Hv) at 1.
  assert (Hi : (i < length (all_columns e))%nat) by (apply lookup_lt_is_Some; eauto).
  rewrite zip_with_app by (rewrite !length_take; lia).
  apply dict_get_decode_pairs_last.
  apply Forall_forall. intros [c' v'] Hin. simpl.
  apply elem_of_zip_l in Hin. apply list_elem_of_lookup in Hin as [j Hj].
  rewrite lookup_drop in Hj. apply (Hlater (S i + j)%nat); [lia|done].
Qed.

Lemma C6_decode_witness :
  let row := [PInt 2; PStr "drill"; PInt 900; PInt 11; PInt 50] in
  filled Examples.product_heap Examples.product = true
  ∧ length row = length (all_columns Examples.product)
  ∧ ∃ d, _convert_to_dict Examples.product_heap Examples.product row = Ok d
      ∧ dict_get "price" d = Some (PInt 900).
Proof.
  split; [reflexivity|]. split; [reflexivity|].
  destruct (C6_decode_zips_transforms_renames Examples.product_heap Examples.product
              [PInt 2; PStr "drill"; PInt 900; PInt 11; PInt 50] eq_refl eq_refl)
    as (d & Hd & Heq & _).
  exists d. split; [exact Hd|]. rewrite Heq. reflexivity.
Defined.

(** One element of the comprehension of [_convert_to_row] on a column
    that has its entries. *)
Lemma convert_cell_filled h e d c l :
  filled_for h e l = true -> c ∈ l ->
  convert_cell h e (PDict d) c
  = match dict_get (exposed_name h e c) d with
    | Some v => Ok (write_transform h e c v)
    | None => Raise (KeyError (exposed_name h e c))
    end.
Proof.
  intros Hf Hc. destruct (filled_for_spec h e l c Hf Hc) as (Hn & _ & Hw).
  unfold convert_cell, dict_item, py_getitem. rewrite Hw; simpl. rewrite Hn; simpl.
  by destruct (dict_get _ d).
Qed.

(** The writable columns of a filled descriptor have their entries. *)
Lemma filled_columns h e ro :
  filled h e = true -> layout e ro -> filled_for h e (columns e) = true.
Proof.
  unfold filled, layout. intros Hf Hl. rewrite Hl in Hf.
  change ("id" :: (columns e ++ ro)%list) with (["id"] ++ (columns e ++ ro))%list in Hf.
  rewrite !filled_for_app in Hf.
  apply andb_prop in Hf as [_ Hf]. by apply andb_prop in Hf as [Hf _].
Qed.

(** With every field present the comprehension is a plain map. *)
Lemma comprehension_convert_present h e d l cs :
  filled_for h e l = true -> cs ⊆ l ->
  Forall (fun c => is_Some (dict_get (exposed_name h e c) d)) cs ->
  comprehension (convert_cell h e (PDict d)) cs
  = Ok (map (fun c => write_transform h e c (default PNone (dict_get (exposed_name h e c) d)))
            cs).
Proof.
  intros Hf Hsub Hall. induction Hall as [|c cs [v Hv] _ IH]; [done|]. simpl.
  rewrite (convert_cell_filled h e d c l Hf) by (apply Hsub; by left).
  rewrite Hv. simpl. rewrite IH; [done|].
  intros x Hx. apply Hsub. by right.
Qed.

(** With a field missing it raises at the first column that lacks one. *)
Lemma comprehension_convert_missing h e d l cs :
  filled_for h e l = true -> cs ⊆ l ->
  Exists (fun c => dict_get (exposed_name h e c) d = None) cs ->
  ∃ c0, c0 ∈ cs ∧ dict_get (exposed_name h e c0) d = None
    ∧ comprehension (convert_cell h e (PDict d)) cs = Raise (KeyError (exposed_name h e c0)).
Proof.
  intros Hf Hsub. induction cs as [|c cs IH]; intros Hex.
  - by apply Exists_nil in Hex.
  - simpl. rewrite (convert_cell_filled h e d c l Hf) by (apply Hsub; by left).
    destruct (dict_get (exposed_name h e c) d) as [v|] eqn:Hv.
    + apply Exists_cons in Hex as [Hex|Hex]; [congruence|].
      destruct IH as (c0 & Hc0 & Hnone & Hraise); [|done|].
      { intros x Hx. apply Hsub. by right. }
      exists c0. split; [by right|]. split; [done|]. simpl. by rewrite Hraise.
    + exists c. split; [by left|]. by split.
Qed.

(** C7: on a record, [_convert_to_row] yields one value per writable
    column, in the order of [columns]: the record's field under the
    column's exposed name, passed through the column's write transform.
    `id` and the read-only columns, the rest of [all_columns], have no
    value in it.  When the record lacks the field of some writable
    column, it raises [KeyError] with the name of such a field. *)
Theorem C7_encode_writable_columns h e ro d :
  filled h e = true ->
  layout e ro ->
  (Forall (fun c => is_Some (dict_get (exposed_name h e c) d)) (columns e) ->
     ∃ vals, _convert_to_row h e (PDict d) = Ok vals
       ∧ length vals = length (columns e)
       ∧ length (all_columns e) = (1 + length vals + length ro)%nat
       ∧ ∀ i c, columns e !! i = Some c ->
           fn_dict h (write_transforms e) !! c = Some (write_transform h e c)
           ∧ name_dict h (column_name2exposed_name e) !! c = Some (exposed_name h e c)
           ∧ ∃ v, dict_get (exposed_name h e c) d = Some v
                  ∧ vals !! i = Some (write_transform h e c v))
  ∧ (Exists (fun c => dict_get (exposed_name h e c) d = None) (columns e) ->
     ∃ c0, c0 ∈ columns e ∧ dict_get (exposed_name h e c0) d = None
       ∧ _convert_to_row h e (PDict d) = Raise (KeyError (exposed_name h e c0))).
Proof.
  intros Hf Hlay. pose proof (filled_columns h e ro Hf Hlay) as Hfc.
  unfold _convert_to_row. split.
  - intros Hall. eexists. split; [by eapply comprehension_convert_present|].
    split; [by rewrite length_map|].
    split; [rewrite Hlay, length_map; simpl; rewrite length_app; lia|].
    intros i c Hc.
    destruct (filled_for_spec h e (columns e) c Hfc) as (Hn & _ & Hw).
    { apply list_elem_of_lookup. eauto. }
    split; [done|]. split; [done|].
    rewrite Forall_forall in Hall. destruct (Hall c) as [v Hv].
    { apply list_elem_of_lookup. eauto. }
    exists v. split; [done|]. rewrite list_lookup_fmap, Hc. simpl. by rewrite Hv.
  - intros Hex. by eapply comprehension_convert_missing.
Qed.

Lemma C7_encode_witness :
  let present := [("price", PInt 120); ("name", PStr "saw"); ("note", PStr "x")] in
  let missing := [("name", PStr "saw")] in
  (∃ vals, _convert_to_row Examples.product_heap Examples.product (PDict present) = Ok vals
     ∧ length vals = 2%nat
     ∧ vals = [PStr "saw"; PInt 120])
  ∧ ∃ c0, c0 ∈ columns Examples.product
      ∧ _convert_to_row Examples.product_heap Examples.product (PDict missing)
        = Raise (KeyError (exposed_name Examples.product_heap Examples.product c0))
      ∧ _convert_to_row Examples.product_heap Examples.product (PDict missing)
        = Raise (KeyError "price").
Proof.
  cbv zeta. split.
  - destruct (C7_encode_writable_columns Examples.product_heap Examples.product
                ["created_at"; "deleted_at"]
                [("price", PInt 120); ("name", PStr "saw"); ("note", PStr "x")]
                eq_refl eq_refl) as [Hpresent _].
    destruct Hpresent as (vals & Hvals & Hlen & _).
    + repeat constructor; vm_compute; by eexists.
    + exists vals. split; [exact Hvals|]. split; [exact Hlen|].
      vm_compute in Hvals. by injection Hvals as <-.
  - destruct (C7_encode_writable_columns Examples.product_heap Examples.product
                ["created_at"; "deleted_at"] [("name", PStr "saw")] eq_refl eq_refl)
      as [_ Hmissing].
    destruct Hmissing as (c0 & Hc0 & _ & Hraise).
    + apply Exists_cons_tl, Exists_cons_hd. vm_compute. reflexivity.
    + exists c0. split; [exact Hc0|]. split; [exact Hraise|]. vm_compute. reflexivity.
Defined.

(** What [_convert_to_row] reads from record [r] for column [c] when the
    write transform is the identity. *)
Definition field_of (h : heap) (e : Entity) (r : pydict) (c : string) : pyval :=
  default PNone (dict_get (exposed_name h e c) r).

Lemma zip_fields h e r cs :
  zip cs (map (field_of h e r) cs) = map (fun c => (c, field_of h e r c)) cs.
Proof. induction cs as [|c cs IH]; simpl; [done|]. by rewrite IH. Qed.

(** Decoding the writable cells alone gives back the fields of [r]. *)
Lemma dict_get_decode_fields h e r cs c d :
  Forall (fun c => ∀ v, read_transform h e c v = v) cs ->
  Forall (fun c => is_Some (dict_get (exposed_name h e c) r)) cs ->
  c ∈ cs ->
  dict_get (exposed_name h e c) (decode_pairs h e (map (fun c => (c, field_of h e r c)) cs) d)
  = dict_get (exposed_name h e c) r.
Proof.
  induction cs as [|x cs IH] using rev_ind; intros Hid Hr Hc.
  - by apply elem_of_nil in Hc.
  - apply Forall_app in Hid as [Hid Hx]. apply Forall_app in Hr as [Hr Hrx].
    apply Forall_inv in Hx. apply Forall_inv in Hrx as [v Hv].
    rewrite map_app, decode_pairs_app. simpl. rewrite dict_get_set, Hx.
    destruct (String.eqb (exposed_name h e c) (exposed_name h e x)) eqn:E.
    + apply String.eqb_eq in E. rewrite E. unfold field_of. by rewrite Hv.
    + apply IH; [done|done|]. apply elem_of_app in Hc as [Hc|Hc]; [done|].
      apply list_elem_of_singleton in Hc as ->. by rewrite String.eqb_refl in E.
Qed.

(** C2, as amended: let the transforms of a filled descriptor be the
    identity, let record [r] have a field for the exposed name of every
    writable column, and let no read-only column be exposed under the
    name of a writable column.  Then [_convert_to_row] succeeds on [r],
    and [_convert_to_dict] on any row that holds its values at the
    writable positions gives a record that agrees with [r] on the exposed
    field of every writable column. *)
Theorem C2_round_trip_writable_fields h e ro r idv ro_vals :
  filled h e = true ->
  layout e ro ->
  Forall (fun c => ∀ v, read_transform h e c v = v ∧ write_transform h e c v = v)
         (all_columns e) ->
  Forall (fun c => is_Some (dict_get (exposed_name h e c) r)) (columns e) ->
  length ro_vals = length ro ->
  Forall (fun c' => Forall (fun c => exposed_name h e c' ≠ exposed_name h e c) (columns e)) ro ->
  ∃ vals d,
    _convert_to_row h e (PDict r) = Ok vals
    ∧ _convert_to_dict h e (idv :: (vals ++ ro_vals)%list) = Ok d
    ∧ Forall (fun c => dict_get (exposed_name h e c) d = dict_get (exposed_name h e c) r)
             (columns e).
Proof.
  intros Hf Hlay Hid Hr Hlen Hdis.
  pose proof (filled_columns h e ro Hf Hlay) as Hfc.
  assert (Hidw : Forall (fun c => ∀ v, read_transform h e c v = v ∧ write_transform h e c v = v)
                        (columns e)).
  { rewrite Hlay in Hid. apply Forall_cons in Hid as [_ Hid].
    by apply Forall_app in Hid as [Hid _]. }
  assert (Hvals : _convert_to_row h e (PDict r) = Ok (map (field_of h e r) (columns e))).
  { unfold _convert_to_row.
    rewrite (comprehension_convert_present h e r (columns e) (columns e) Hfc) by done.
    f_equal. apply map_ext_in. intros c Hc. apply list_elem_of_In in Hc.
    rewrite Forall_forall in Hidw. apply (Hidw c Hc). }
  eexists _, _. split; [exact Hvals|]. split.
  { apply _convert_to_dict_filled; [done|].
    rewrite Hlay. simpl. rewrite !length_app, length_map. lia. }
  apply Forall_forall. intros c Hc.
  rewrite Hlay. simpl.
  rewrite zip_with_app by (by rewrite length_map).
  rewrite decode_pairs_app.
  rewrite dict_get_decode_pairs_other.
  - rewrite zip_fields. apply dict_get_decode_fields; [|done|done].
    eapply Forall_impl; [exact Hidw|]. intros x Hx v. apply Hx.
  - apply Forall_forall. intros [c' v'] Hin. simpl.
    apply elem_of_zip_l in Hin. rewrite Forall_forall in Hdis.
    specialize (Hdis c' Hin). rewrite Forall_forall in Hdis. by apply Hdis.
Qed.

Lemma C2_round_trip_witness :
  let r := [("price", PInt 120); ("name", PStr "saw")] in
  ∃ vals d,
    _convert_to_row Examples.product_heap Examples.product (PDict r) = Ok vals
    ∧ _convert_to_dict Examples.product_heap Examples.product
        (PInt 1 :: (vals ++ [PInt 10; PNone])%list) = Ok d
    ∧ Forall (fun c => dict_get (exposed_name Examples.product_heap Examples.product c) d
                       = dict_get (exposed_name Examples.product_heap Examples.product c) r)
             (columns Examples.product).
Proof.
  apply (C2_round_trip_writable_fields Examples.product_heap Examples.product
           ["created_at"; "deleted_at"]).
  - reflexivity.
  - reflexivity.
  - repeat constructor.
  - repeat constructor; vm_compute; by eexists.
  - reflexivity.
  - repeat constructor; vm_compute; discriminate.
Defined.

(** C2, as stated, fails: with identity transforms and a record whose
    only key is the exposed name of the only writable column, the field
    comes back with the cell of a read-only column, because that column
    is exposed under the same name and is decoded later. *)
Lemma C2_round_trip_breaks_on_shared_exposed_name :
  let h := Examples.aliased_heap in
  let e := Examples.aliased in
  let r := [("a", PInt 1)] in
  map fst r = map (exposed_name h e) (columns e)
  ∧ Forall (fun c => ∀ v, read_transform h e c v = v ∧ write_transform h e c v = v)
           (all_columns e)
  ∧ _convert_to_row h e (PDict r) = Ok [PInt 1]
  ∧ _convert_to_dict h e (PInt 7 :: ([PInt 1] ++ [PInt 9])%list)
    = Ok [("id", PInt 7); ("a", PInt 9)]
  ∧ dict_get "a" [("id", PInt 7); ("a", PInt 9)] ≠ dict_get "a" r.
Proof.
  cbv zeta. split; [reflexivity|]. split; [repeat constructor|].
  split; [reflexivity|]. split; [reflexivity|]. discriminate.
Qed.

(** ** The statements sent to the store *)

Section Statements.
Context {C : Type} {B : Backend C}.

(** Unfolds an operation down to the calls on the backend. *)
Local Ltac run :=
  unfold Entity_get, Entity_put, Entity_post, Entity_delete, Entity_list,
         db_cursor, execute, log_statement, backend, lastrowid, raise, lift;
  unfold mbind, mret, M_bind, M_ret; cbn beta iota.

(** Case analysis on what the backend answers. *)
Local Ltac answer :=
  repeat match goal with
         | |- context [be_execute ?q ?a ?c] =>
             destruct (be_execute q a c) as [[[]|?] ?]; cbn
         | |- context [be_fetchone ?c] =>
             destruct (be_fetchone c) as [[[?|]|?] ?]; cbn
         | |- context [be_fetchall ?c] =>
             destruct (be_fetchall c) as [[?|?] ?]; cbn
         end.

(** [Entity_get] sends one statement, selecting on `id` alone. *)
Lemma Entity_get_statements h e id s c1 :
  db e = Some TheDB ->
  be_cursor (conn s) = (Ok tt, c1) ->
  statements (Entity_get h e id s).2
  = (statements s
     ++ [("SELECT " +:+ all_fields e +:+ " FROM " +:+ table e +:+ " WHERE id=%s",
          [PInt id])])%list.
Proof.
  intros Hdb Hcur. run. rewrite Hdb, Hcur. cbn. answer; try reflexivity.
  destruct (_convert_to_dict h e _); reflexivity.
Qed.

(** Whatever row the store hands back is decoded and returned; none of
    its cells is inspected. *)
Lemma Entity_get_row h e id s c1 c2 c3 row :
  db e = Some TheDB ->
  be_cursor (conn s) = (Ok tt, c1) ->
  be_execute ("SELECT " +:+ all_fields e +:+ " FROM " +:+ table e +:+ " WHERE id=%s")
             [PInt id] c1 = (Ok tt, c2) ->
  be_fetchone c2 = (Ok (Some row), c3) ->
  (Entity_get h e id s).1
  = match _convert_to_dict h e row with
    | Ok d => Ok (PDict d)
    | Raise x => Raise x
    end.
Proof.
  intros Hdb Hcur Hexe Hrow. run. rewrite Hdb, Hcur. cbn. rewrite Hexe. cbn.
  rewrite Hrow. cbn. destruct (_convert_to_dict h e row); reflexivity.
Qed.

(** No row: [NotFound]. *)
Lemma Entity_get_no_row h e id s c1 c2 c3 :
  db e = Some TheDB ->
  be_cursor (conn s) = (Ok tt, c1) ->
  be_execute ("SELECT " +:+ all_fields e +:+ " FROM " +:+ table e +:+ " WHERE id=%s")
             [PInt id] c1 = (Ok tt, c2) ->
  be_fetchone c2 = (Ok None, c3) ->
  (Entity_get h e id s).1
  = Raise (NotFound ("No item with id '" +:+ str_int id +:+ "' in table " +:+ table e)).
Proof.
  intros Hdb Hcur Hexe Hrow. run. rewrite Hdb, Hcur. cbn. rewrite Hexe. cbn.
  by rewrite Hrow.
Qed.

(** [Entity_list] sends one statement; its text is decided by the
    `where` argument and by [allow_delete]. *)
Lemma Entity_list_statements h e w vals s c1 :
  db e = Some TheDB ->
  be_cursor (conn s) = (Ok tt, c1) ->
  statements (Entity_list h e w vals s).2
  = (statements s
     ++ [("SELECT " +:+ all_fields e +:+ " FROM " +:+ table e +:+ " "
          +:+ match w with
              | DEFAULT_WHERE => if allow_delete e then "WHERE deleted_at IS NULL" else ""
              | WhereNone => ""
              | WhereExpr expr => "WHERE " +:+ expr
              end, vals)])%list.
Proof.
  intros Hdb Hcur. run. rewrite Hdb, Hcur. cbn.
  destruct w; [destruct (allow_delete e)| |]; cbn; answer; try reflexivity;
    destruct (comprehension _ _); reflexivity.
Qed.

(** C1: [Entity_get] sends `SELECT <all_fields> FROM <table> WHERE
    id=%s`, whose condition is on `id` alone, and whatever row the store
    answers with is decoded and returned, a soft-deleted one as well.
    [Entity_list] with the default filter sends the same selection with
    `WHERE deleted_at IS NULL` when [allow_delete] is set, and with no
    condition at all when it is not. *)
Theorem C1_get_ignores_deleted_at_list_filters h e id vals s c1 :
  db e = Some TheDB ->
  be_cursor (conn s) = (Ok tt, c1) ->
  statements (Entity_get h e id s).2
  = (statements s
     ++ [("SELECT " +:+ all_fields e +:+ " FROM " +:+ table e +:+ " WHERE id=%s",
          [PInt id])])%list
  ∧ (∀ c2 c3 row,
       be_execute ("SELECT " +:+ all_fields e +:+ " FROM " +:+ table e +:+ " WHERE id=%s")
                  [PInt id] c1 = (Ok tt, c2) ->
       be_fetchone c2 = (Ok (Some row), c3) ->
       (Entity_get h e id s).1
       = match _convert_to_dict h e row with
         | Ok d => Ok (PDict d)
         | Raise x => Raise x
         end)
  ∧ statements (Entity_list h e DEFAULT_WHERE vals s).2
    = (statements s
       ++ [(if allow_delete e
            then "SELECT " +:+ all_fields e +:+ " FROM " +:+ table e
                 +:+ " WHERE deleted_at IS NULL"
            else "SELECT " +:+ all_fields e +:+ " FROM " +:+ table e +:+ " ",
            vals)])%list.
Proof.
  intros Hdb Hcur. split; [by eapply Entity_get_statements|].
  split; [intros; by eapply Entity_get_row|].
  rewrite (Entity_list_statements h e DEFAULT_WHERE vals s c1 Hdb Hcur).
  by destruct (allow_delete e).
Qed.

(** C5: with [allow_delete] unset, [Entity_delete] hands back a
    [MethodNotAllowed] object and leaves the world as it was: no
    cursor is opened and no statement is sent.  With [allow_delete]
    set, it sends exactly one statement, `UPDATE <table> SET
    deleted_at=CURRENT_TIMESTAMP WHERE id=%s` bound to the id, an update
    and not a removal, and returns `None` when the store accepts it. *)
Theorem C5_delete_refused_or_soft e id s :
  (allow_delete e = false ->
     Entity_delete e id s = (Ok (PExc MethodNotAllowed), s))
  ∧ (allow_delete e = true -> db e = Some TheDB ->
     ∀ c1, be_cursor (conn s) = (Ok tt, c1) ->
       statements (Entity_delete e id s).2
       = (statements s
          ++ [("UPDATE " +:+ table e +:+ " SET deleted_at=CURRENT_TIMESTAMP WHERE id=%s",
               [PInt id])])%list
       ∧ ∀ c2,
           be_execute ("UPDATE " +:+ table e
                       +:+ " SET deleted_at=CURRENT_TIMESTAMP WHERE id=%s")
                      [PInt id] c1 = (Ok tt, c2) ->
           (Entity_delete e id s).1 = Ok PNone ∧ conn (Entity_delete e id s).2 = c2).
Proof.
  split.
  - intros Hno. unfold Entity_delete. by rewrite Hno.
  - intros Hyes Hdb c1 Hcur. run. rewrite Hyes, Hdb. cbn. rewrite Hcur. cbn. split.
    + answer; reflexivity.
    + intros c2 Hexe. by rewrite Hexe.
Qed.

(** C9, as amended: an expression passed to [Entity_list] is sent
    after `WHERE`, with the bound values passed along; an explicit
    `None` gives a statement that ends after the table name, with no
    `WHERE` clause.  The empty string is an expression like any other
    and is not treated as `None`. *)
Theorem C9_list_explicit_filter h e vals s c1 :
  db e = Some TheDB ->
  be_cursor (conn s) = (Ok tt, c1) ->
  (∀ expr,
     statements (Entity_list h e (WhereExpr expr) vals s).2
     = (statements s
        ++ [("SELECT " +:+ all_fields e +:+ " FROM " +:+ table e +:+ " WHERE " +:+ expr,
             vals)])%list)
  ∧ statements (Entity_list h e WhereNone vals s).2
    = (statements s
       ++ [("SELECT " +:+ all_fields e +:+ " FROM " +:+ table e +:+ " ", vals)])%list.
Proof.
  intros Hdb Hcur. split; [intros expr|];
    by rewrite (Entity_list_statements h e _ vals s c1 Hdb Hcur).
Qed.

(** ** Through the route wrapper *)

Local Ltac wrap :=
  unfold get_view, put_view, delete_view, post_view, list_view, route_helper,
         try_except, call_view, jsonify, eprint;
  unfold mbind, mret, M_bind, M_ret; cbn beta iota.

(** A missing row is answered by [get_view] with a 404. *)
Lemma get_view_not_found h e id req s c1 c2 c3 :
  db e = Some TheDB ->
  be_cursor (conn s) = (Ok tt, c1) ->
  be_execute ("SELECT " +:+ all_fields e +:+ " FROM " +:+ table e +:+ " WHERE id=%s")
             [PInt id] c1 = (Ok tt, c2) ->
  be_fetchone c2 = (Ok None, c3) ->
  (get_view h e req id s).1
  = Ok {| body := PDict [("status", PStr "not found")]; status_code := 404 |}.
Proof.
  intros Hdb Hcur Hexe Hrow. wrap. run. rewrite Hdb, Hcur. cbn. rewrite Hexe. cbn.
  by rewrite Hrow.
Qed.

(** [put_view] answers 200 as soon as the store accepts the `UPDATE`;
    whether a row has that id plays no part. *)
Lemma put_view_updated h e data vals id s c1 c2 :
  db e = Some TheDB ->
  data ≠ PNone ->
  be_cursor (conn s) = (Ok tt, c1) ->
  _convert_to_row h e data = Ok vals ->
  be_execute ("UPDATE " +:+ table e +:+ " SET "
              +:+ String.concat "," (map (fun col => col +:+ "=%s") (columns e))
              +:+ " WHERE id=%s")
             (vals ++ [PInt id])%list c1 = (Ok tt, c2) ->
  (put_view h e data id s).1
  = Ok {| body := PDict [("status", PStr "updated")]; status_code := 200 |}.
Proof.
  intros Hdb Hdata Hcur Hvals Hexe. wrap. run.
  destruct data; try done; rewrite Hdb, Hcur; cbn; rewrite Hvals; cbn; by rewrite Hexe.
Qed.

(** So does [delete_view]. *)
Lemma delete_view_deleted e id req s c1 c2 :
  allow_delete e = true ->
  db e = Some TheDB ->
  be_cursor (conn s) = (Ok tt, c1) ->
  be_execute ("UPDATE " +:+ table e +:+ " SET deleted_at=CURRENT_TIMESTAMP WHERE id=%s")
             [PInt id] c1 = (Ok tt, c2) ->
  (delete_view e req id s).1
  = Ok {| body := PDict [("status", PStr "deleted")]; status_code := 200 |}.
Proof.
  intros Hyes Hdb Hcur Hexe. wrap. run. rewrite Hyes, Hdb. cbn. rewrite Hcur. cbn.
  by rewrite Hexe.
Qed.

(** A body that lacks a field makes [post_view] re-raise the
    [KeyError] of [_convert_to_row], after printing it; nothing has
    been sent to the store by then. *)
Lemma post_view_key_error h e data k s c1 :
  db e = Some TheDB ->
  data ≠ PNone ->
  be_cursor (conn s) = (Ok tt, c1) ->
  _convert_to_row h e data = Raise (KeyError k) ->
  post_view h e data tt s
  = (Raise (KeyError k),
     {| conn := c1; statements := statements s; stderr := (stderr s ++ [KeyError k])%list |}).
Proof.
  intros Hdb Hdata Hcur Hvals. wrap. run.
  destruct data; try done; rewrite Hdb, Hcur; cbn; by rewrite Hvals.
Qed.
End Statements.

(** ** The routes *)

(** [add_routes] binds a route to [Entity_delete] only when
    [allow_delete] is set; the other four are always bound. *)
Lemma add_routes_operations e url endpoint :
  map bound_to (add_routes e url endpoint)
  = if allow_delete e then [OpGet; OpPut; OpDelete; OpPost; OpList]
    else [OpGet; OpPut; OpPost; OpList].
Proof. unfold add_routes. by destruct (allow_delete e). Qed.

(** ** On the reference store *)

Lemma C1_get_list_witness :
  let s := Mock.start Examples.shop in
  (@Entity_get _ Examples.product_db Examples.product_heap Examples.product 2 s).1
  = Ok (PDict [("id", PInt 2); ("name", PStr "drill"); ("price", PInt 900);
               ("created_at", PInt 11); ("deleted_at", PInt 50)])
  ∧ statements (@Entity_get _ Examples.product_db Examples.product_heap Examples.product 2 s).2
    = [("SELECT id,name,price,created_at,deleted_at FROM product WHERE id=%s", [PInt 2])]
  ∧ statements (@Entity_list _ Examples.product_db Examples.product_heap Examples.product
                  DEFAULT_WHERE [] s).2
    = [("SELECT id,name,price,created_at,deleted_at FROM product WHERE deleted_at IS NULL",
        [])].
Proof.
  assert (Hcur : @be_cursor _ Examples.product_db (conn (Mock.start Examples.shop))
                 = (Ok tt, Examples.shop)) by (vm_compute; reflexivity).
  destruct (C1_get_ignores_deleted_at_list_filters (B := Examples.product_db)
              Examples.product_heap Examples.product 2 [] (Mock.start Examples.shop) _
              eq_refl Hcur) as (Hlog & Hrow & Hlist).
  cbv zeta. split; [|split].
  - erewrite Hrow; cycle 1; [vm_compute; reflexivity | vm_compute; reflexivity |].
    vm_compute. reflexivity.
  - rewrite Hlog. vm_compute. reflexivity.
  - rewrite Hlist. vm_compute. reflexivity.
Defined.

(** After a soft delete the row is still in the table, is still
    returned by id, and no longer shows in the default listing. *)
Example soft_deleted_row_is_kept :
  let s0 := Mock.start Examples.shop in
  let s1 := (@Entity_delete _ Examples.product_db Examples.product 1 s0).2 in
  length (Mock.rows (conn s1)) = length (Mock.rows Examples.shop)
  ∧ (@Entity_get _ Examples.product_db Examples.product_heap Examples.product 1 s1).1
    = Ok (PDict [("id", PInt 1); ("name", PStr "saw"); ("price", PInt 120);
                 ("created_at", PInt 10); ("deleted_at", PInt 1000)])
  ∧ (@Entity_list _ Examples.product_db Examples.product_heap Examples.product
       DEFAULT_WHERE [] s1).1 = Ok (PList []).
Proof. vm_compute. repeat split. Qed.

Lemma C5_delete_witness :
  let s := Mock.start Examples.shop in
  @Entity_delete _ Examples.archive_db Examples.archive 1 s = (Ok (PExc MethodNotAllowed), s)
  ∧ statements (@Entity_delete _ Examples.product_db Examples.product 1 s).2
    = [("UPDATE product SET deleted_at=CURRENT_TIMESTAMP WHERE id=%s", [PInt 1])]
  ∧ (@Entity_delete _ Examples.product_db Examples.product 1 s).1 = Ok PNone
  ∧ Mock.rows (conn (@Entity_delete _ Examples.product_db Examples.product 1 s).2)
    = [ [PInt 1; PStr "saw"; PInt 120; PInt 10; PInt 1000];
        [PInt 2; PStr "drill"; PInt 900; PInt 11; PInt 50] ].
Proof.
  cbv zeta. split.
  - apply (C5_delete_refused_or_soft (B := Examples.archive_db)). vm_compute. reflexivity.
  - assert (Hcur : @be_cursor _ Examples.product_db (conn (Mock.start Examples.shop))
                   = (Ok tt, Examples.shop)) by (vm_compute; reflexivity).
    destruct (proj2 (C5_delete_refused_or_soft (B := Examples.product_db) Examples.product 1
                       (Mock.start Examples.shop)) eq_refl eq_refl _ Hcur)
      as [Hlog Hres].
    edestruct Hres as [Hnone Hconn]; [vm_compute; reflexivity|].
    split; [rewrite Hlog; vm_compute; reflexivity|].
    split; [exact Hnone|]. rewrite Hconn. reflexivity.
Defined.

Lemma C9_list_filter_witness :
  let s := Mock.start Examples.shop in
  statements (@Entity_list _ Examples.product_db Examples.product_heap Examples.product
                (WhereExpr "price > %s") [PInt 100] s).2
  = [("SELECT id,name,price,created_at,deleted_at FROM product WHERE price > %s",
      [PInt 100])]
  ∧ statements (@Entity_list _ Examples.product_db Examples.product_heap Examples.product
                  WhereNone [] s).2
    = [("SELECT id,name,price,created_at,deleted_at FROM product ", [])].
Proof.
  assert (Hcur : @be_cursor _ Examples.product_db (conn (Mock.start Examples.shop))
                 = (Ok tt, Examples.shop)) by (vm_compute; reflexivity).
  cbv zeta. split.
  - rewrite (proj1 (C9_list_explicit_filter (B := Examples.product_db) Examples.product_heap
                      Examples.product [PInt 100] (Mock.start Examples.shop) _ eq_refl Hcur)
                   "price > %s").
    vm_compute. reflexivity.
  - rewrite (proj2 (C9_list_explicit_filter (B := Examples.product_db) Examples.product_heap
                      Examples.product [] (Mock.start Examples.shop) _ eq_refl Hcur)).
    vm_compute. reflexivity.
Defined.

(** C9, as stated, fails for the empty filter: the statement sent for
    `where=""` carries a `WHERE` with nothing after it, and is not the
    statement sent for `where=None`. *)
Lemma C9_empty_filter_keeps_where :
  let s := Mock.start Examples.shop in
  statements (@Entity_list _ Examples.product_db Examples.product_heap Examples.product
                (WhereExpr "") [] s).2
  = [("SELECT id,name,price,created_at,deleted_at FROM product WHERE ", [])]
  ∧ statements (@Entity_list _ Examples.product_db Examples.product_heap Examples.product
                  (WhereExpr "") [] s).2
    ≠ statements (@Entity_list _ Examples.product_db Examples.product_heap Examples.product
                    WhereNone [] s).2.
Proof. vm_compute. split; [reflexivity | discriminate]. Qed.

(** C3 on the code: no product has id 9.  [get_view] answers 404 with
    `{"status": "not found"}`; [put_view] and [delete_view] send their
    `UPDATE` and answer 200 with `{"status": "updated"}` and
    `{"status": "deleted"}`. *)
Lemma C3_put_delete_answer_200_without_row :
  let s := Mock.start Examples.shop in
  let data := PDict [("name", PStr "axe"); ("price", PInt 5)] in
  filter (fun r => Mock.has_id 9 r) (Mock.rows Examples.shop) = []
  ∧ (@get_view _ Examples.product_db Examples.product_heap Examples.product PNone 9 s).1
    = Ok {| body := PDict [("status", PStr "not found")]; status_code := 404 |}
  ∧ @put_view _ Examples.product_db Examples.product_heap Examples.product data 9 s
    = (Ok {| body := PDict [("status", PStr "updated")]; status_code := 200 |},
       {| conn := Examples.shop;
          statements := [("UPDATE product SET name=%s,price=%s WHERE id=%s",
                          [PStr "axe"; PInt 5; PInt 9])];
          stderr := [] |})
  ∧ @delete_view _ Examples.product_db Examples.product PNone 9 s
    = (Ok {| body := PDict [("status", PStr "deleted")]; status_code := 200 |},
       {| conn := Examples.shop;
          statements := [("UPDATE product SET deleted_at=CURRENT_TIMESTAMP WHERE id=%s",
                          [PInt 9])];
          stderr := [] |}).
Proof. vm_compute. repeat split. Qed.

(** C4 on the code: posting `{}` to a descriptor with writable columns.
    Nothing is sent to the store and no row is added, and the missing
    field is named; but what leaves [post_view] is the [KeyError] itself,
    re-raised, which reaches the client as a 500 and not as a 400 or
    422. *)
Lemma C4_post_empty_record_raises_key_error :
  let s := Mock.start Examples.shop in
  let out := @post_view _ Examples.product_db Examples.product_heap Examples.product
               (PDict []) tt s in
  columns Examples.product = ["name"; "price"]
  ∧ out.1 = Raise (KeyError "name")
  ∧ statements out.2 = []
  ∧ Mock.rows (conn out.2) = Mock.rows Examples.shop
  ∧ stderr out.2 = [KeyError "name"]
  ∧ http_status out.1 = 500.
Proof. vm_compute. repeat split. Qed.

(** * Further properties of the codec and of construction *)

Lemma comprehension_ext {A B : Type} (f g : A -> result B) l :
  Forall (fun x => f x = g x) l -> comprehension f l = comprehension g l.
Proof.
  induction 1 as [|x l Hx _ IH]; simpl; [done|]. by rewrite Hx, IH.
Qed.

Lemma fold_result_app {A B : Type} (f : A -> B -> result A) a l1 l2 :
  fold_result f a (l1 ++ l2)
  = match fold_result f a l1 with
    | Ok a' => fold_result f a' l2
    | Raise x => Raise x
    end.
Proof.
  revert a. induction l1 as [|x l1 IH]; intros a; simpl; [done|].
  destruct (f a x); simpl; [apply IH | done].
Qed.

(** The index loop over the first [k] columns, when the row has that
    many cells. *)
Lemma fold_decode_prefix h e row k d :
  filled h e = true ->
  (k <= length (all_columns e))%nat -> (k <= length row)%nat ->
  fold_result (decode_cell h e row) d (seq 0 k)
  = Ok (decode_pairs h e (zip (take k (all_columns e)) (take k row)) d).
Proof.
  intros Hf. induction k as [|k IH]; intros Hc Hr; [done|].
  rewrite seq_S, fold_result_app, IH by lia. simpl.
  destruct (lookup_lt_is_Some_2 (all_columns e) k) as [c Hck]; [lia|].
  destruct (lookup_lt_is_Some_2 row k) as [v Hvk]; [lia|].
  rewrite (decode_cell_filled _ _ _ _ _ _ _ Hf Hck Hvk).
  rewrite (take_S_r _ _ _ Hck), (take_S_r _ _ _ Hvk).
  rewrite zip_with_app by (rewrite !length_take; lia).
  by rewrite decode_pairs_app.
Qed.

(** [_convert_to_dict] by the length of the row. *)
Lemma _convert_to_dict_by_length h e row :
  filled h e = true ->
  ((length (all_columns e) <= length row)%nat ->
     _convert_to_dict h e row
     = Ok (decode_pairs h e (zip (all_columns e) row) [])
     ∧ _convert_to_dict h e row
       = _convert_to_dict h e (take (length (all_columns e)) row))
  ∧ ((length row < length (all_columns e))%nat ->
     _convert_to_dict h e row = Raise IndexError).
Proof.
  intros Hf. split.
  - intros Hlen.
    assert (Hgen : ∀ r, (length (all_columns e) <= length r)%nat ->
              _convert_to_dict h e r
              = Ok (decode_pairs h e
                      (zip (all_columns e) (take (length (all_columns e)) r)) [])).
    { intros r Hr. unfold _convert_to_dict.
      rewrite fold_decode_prefix by (done || lia). by rewrite firstn_all. }
    split.
    + rewrite Hgen by done. by rewrite zip_with_take_r.
    + rewrite (Hgen row) by done. rewrite Hgen by (rewrite length_take; lia).
      by rewrite take_take, Nat.min_id.
  - intros Hlen. unfold _convert_to_dict.
    replace (length (all_columns e))
      with (length row + S (length (all_columns e) - S (length row)))%nat by lia.
    rewrite seq_app, fold_result_app, fold_decode_prefix by (done || lia).
    cbn [seq fold_result mbind result_bind]. unfold decode_cell, list_item, dict_item.
    destruct (lookup_lt_is_Some_2 (all_columns e) (length row)) as [c Hc]; [lia|].
    destruct (filled_for_spec h e (all_columns e) c Hf) as (Hn & Hr & _).
    { apply list_elem_of_lookup. eauto. }
    rewrite Nat.add_0_l, Hc. simpl. rewrite Hn. simpl. rewrite Hr. simpl.
    by rewrite (lookup_ge_None_2 row (length row)) by lia.
Qed.

(** X3: the length of the row against the number of columns.  A row
    with at least as many cells as [all_columns] is decoded, the cells
    beyond the last column being ignored; a shorter row makes
    [_convert_to_dict] raise [IndexError]. *)
Theorem decode_row_length h e row :
  filled h e = true ->
  ((length (all_columns e) <= length row)%nat ->
     _convert_to_dict h e row
     = Ok (decode_pairs h e (zip (all_columns e) row) [])
     ∧ _convert_to_dict h e row
       = _convert_to_dict h e (take (length (all_columns e)) row))
  ∧ ((length row < length (all_columns e))%nat ->
     _convert_to_dict h e row = Raise IndexError).
Proof. apply _convert_to_dict_by_length. Qed.

Lemma decode_row_length_witness :
  _convert_to_dict Examples.product_heap Examples.product
    [PInt 1; PStr "saw"; PInt 120; PInt 10; PNone; PStr "extra"]
  = _convert_to_dict Examples.product_heap Examples.product
      [PInt 1; PStr "saw"; PInt 120; PInt 10; PNone]
  ∧ _convert_to_dict Examples.product_heap Examples.product [PInt 1; PStr "saw"]
    = Raise IndexError.
Proof.
  split.
  - apply (proj1 (decode_row_length Examples.product_heap Examples.product
                    [PInt 1; PStr "saw"; PInt 120; PInt 10; PNone; PStr "extra"] eq_refl)).
    vm_compute. lia.
  - apply (proj2 (decode_row_length Examples.product_heap Examples.product
                    [PInt 1; PStr "saw"] eq_refl)).
    vm_compute. lia.
Defined.

Lemma dict_set_fresh k v (d : pydict) : k ∉ map fst d -> dict_set k v d = (d ++ [(k, v)])%list.
Proof.
  induction d as [|[k' v'] d IH]; simpl; intros Hk; [done|].
  destruct (String.eqb k k') eqn:E.
  - apply String.eqb_eq in E as ->. exfalso. apply Hk. by left.
  - rewrite IH; [done|]. intros Hin. apply Hk. by right.
Qed.

Lemma decode_pairs_fresh h e l d :
  NoDup (map fst d ++ map (fun cv => exposed_name h e cv.1) l) ->
  decode_pairs h e l d
  = (d ++ map (fun cv => (exposed_name h e cv.1, read_transform h e cv.1 cv.2)) l)%list.
Proof.
  revert d. induction l as [|[c v] l IH]; intros d Hnd; simpl.
  - by rewrite app_nil_r.
  - apply NoDup_app in Hnd as (Hd & Hdisj & Hl). apply NoDup_cons in Hl as [Hc Hl].
    rewrite IH.
    + rewrite dict_set_fresh; [by rewrite <- app_assoc|].
      intros Hin. apply (Hdisj _ Hin). by left.
    + rewrite dict_set_fresh by (intros Hin; apply (Hdisj _ Hin); by left).
      rewrite map_app. simpl. apply NoDup_app. split; [|split; [|done]].
      * apply NoDup_app. split; [done|]. split; [|apply NoDup_singleton].
        intros x Hx Hx'. apply list_elem_of_singleton in Hx' as ->.
        apply (Hdisj _ Hx). by left.
      * intros x Hx Hx'. apply elem_of_app in Hx as [Hx|Hx].
        -- apply (Hdisj _ Hx). by right.
        -- apply list_elem_of_singleton in Hx as ->. done.
Qed.

(** X2: when the columns of a filled descriptor are exposed under
    pairwise distinct names, the record decoded from a full row has one
    field per column, in the order of [all_columns]: the exposed name
    with the read transform of the cell at the column's position. *)
Theorem decode_distinct_names h e row :
  filled h e = true ->
  length row = length (all_columns e) ->
  NoDup (map (exposed_name h e) (all_columns e)) ->
  _convert_to_dict h e row
  = Ok (zip_with (fun c v => (exposed_name h e c, read_transform h e c v))
                 (all_columns e) row)
  ∧ ∀ d, _convert_to_dict h e row = Ok d ->
      map fst d = map (exposed_name h e) (all_columns e)
      ∧ length d = length (all_columns e).
Proof.
  intros Hf Hlen Hnd.
  assert (Hd : _convert_to_dict h e row
               = Ok (zip_with (fun c v => (exposed_name h e c, read_transform h e c v))
                              (all_columns e) row)).
  { rewrite _convert_to_dict_filled by done. f_equal.
    rewrite decode_pairs_fresh.
    - simpl. clear. revert row. induction (all_columns e) as [|c l IH]; intros [|v row];
        simpl; [done..|]. by rewrite IH.
    - simpl. replace (map (fun cv : string * pyval => exposed_name h e cv.1)
                          (zip (all_columns e) row))
        with (map (exposed_name h e) (all_columns e)); [done|].
      clear -Hlen. revert row Hlen. induction (all_columns e) as [|c l IH];
        intros [|v row] Hlen; simpl in *; try done. f_equal. apply IH. lia. }
  split; [done|]. intros d Hd'. rewrite Hd in Hd'. injection Hd' as <-.
  split.
  - clear -Hlen. revert row Hlen. induction (all_columns e) as [|c l IH];
      intros [|v row] Hlen; simpl in *; try done. f_equal. apply IH. lia.
  - rewrite length_zip_with. lia.
Qed.

Lemma decode_distinct_names_witness :
  _convert_to_dict Examples.product_heap Examples.product
    [PInt 2; PStr "drill"; PInt 900; PInt 11; PInt 50]
  = Ok [("id", PInt 2); ("name", PStr "drill"); ("price", PInt 900);
        ("created_at", PInt 11); ("deleted_at", PInt 50)].
Proof.
  rewrite (proj1 (decode_distinct_names Examples.product_heap Examples.product
                    [PInt 2; PStr "drill"; PInt 900; PInt 11; PInt 50] eq_refl eq_refl
                    ltac:(apply (bool_decide_unpack _); vm_compute; reflexivity))).
  vm_compute. reflexivity.
Defined.

(** A round of the loop of [__init__] on a column that has its three
    entries writes nothing. *)
Lemma init_column_noop names rt wt h c :
  is_Some (name_dict h names !! c) ->
  is_Some (fn_dict h rt !! c) ->
  is_Some (fn_dict h wt !! c) ->
  init_column names rt wt h c = h.
Proof.
  intros [n Hn] [f Hf] [g Hg]. unfold init_column. by rewrite Hn, Hf, Hg.
Qed.

Lemma init_columns_noop names rt wt h l :
  Forall (fun c => is_Some (name_dict h names !! c)
                   ∧ is_Some (fn_dict h rt !! c)
                   ∧ is_Some (fn_dict h wt !! c)) l ->
  foldl (init_column names rt wt) h l = h.
Proof.
  induction 1 as [|c l (Hn & Hr & Hw) _ IH]; simpl; [done|].
  by rewrite init_column_noop.
Qed.

(** X4: once a descriptor has been constructed, constructing another
    one over the same three dictionaries, with columns taken among those
    of the first, leaves every dictionary exactly as it was. *)
Theorem construction_over_known_columns_writes_nothing
    h tbl cols ro rt wt names allow tbl' cols' ro' allow' :
  Forall (fun c => c ∈ "id" :: (cols ++ ro)%list) (cols' ++ ro')%list ->
  let h1 := (Entity_init h tbl cols ro rt wt names allow).2 in
  (Entity_init h1 tbl' cols' ro' rt wt names allow').2 = h1.
Proof.
  intros Hsub h1. unfold Entity_init in *. cbn [snd] in *.
  apply init_columns_noop.
  assert (Hall : Forall (fun c => c ∈ "id" :: (cols ++ ro)%list) ("id" :: (cols' ++ ro')%list)).
  { constructor; [by left | done]. }
  eapply Forall_impl; [exact Hall|]. intros c Hc. subst h1.
  rewrite name_dict_init_columns, !fn_dict_init_columns.
  repeat split.
  - destruct (name_dict h _ !! c); [by eexists|]. rewrite decide_True by done. by eexists.
  - destruct (fn_dict h _ !! c); [by eexists|].
    rewrite decide_True by (split; [by left|done]). by eexists.
  - destruct (fn_dict h _ !! c); [by eexists|].
    rewrite decide_True by (split; [by right|done]). by eexists.
Qed.

Lemma construction_over_known_columns_witness :
  (Entity_init Examples.product_heap "price_list" ["price"] ["name"] None None None false).2
  = Examples.product_heap.
Proof.
  apply (construction_over_known_columns_writes_nothing heap0 "product" ["name"; "price"]
           ["created_at"; "deleted_at"] None None None true "price_list" ["price"] ["name"]
           false).
  repeat constructor.
Defined.

(** X5: what construction leaves alone.  Dictionaries other than the
    three it was given are untouched; in those three, an entry that
    existed is kept as it was, and no entry appears under a key that is
    not a column of the descriptor. *)
Theorem construction_frame h tbl cols ro rt wt names allow :
  let e := (Entity_init h tbl cols ro rt wt names allow).1 in
  let h' := (Entity_init h tbl cols ro rt wt names allow).2 in
  (∀ r, r ≠ column_name2exposed_name e -> name_dict h' r = name_dict h r)
  ∧ (∀ r, r ≠ read_transforms e -> r ≠ write_transforms e -> fn_dict h' r = fn_dict h r)
  ∧ (∀ r k, k ∉ all_columns e ->
       name_dict h' r !! k = name_dict h r !! k ∧ fn_dict h' r !! k = fn_dict h r !! k)
  ∧ (∀ r k v, name_dict h r !! k = Some v -> name_dict h' r !! k = Some v)
  ∧ (∀ r k f, fn_dict h r !! k = Some f -> fn_dict h' r !! k = Some f).
Proof.
  unfold Entity_init. cbn [fst snd all_columns column_name2exposed_name read_transforms
                             write_transforms].
  split; [|split; [|split; [|split]]].
  - intros r Hr. apply map_eq. intros k. rewrite name_dict_init_columns.
    destruct (name_dict h r !! k); [done|]. rewrite decide_False; [done|]. by intros [? _].
  - intros r Hr Hw. apply map_eq. intros k. rewrite fn_dict_init_columns.
    destruct (fn_dict h r !! k); [done|]. rewrite decide_False; [done|].
    intros [[?|?] _]; done.
  - intros r k Hk. rewrite name_dict_init_columns, fn_dict_init_columns. split.
    + destruct (name_dict h r !! k); [done|]. rewrite decide_False; [done|]. by intros [_ ?].
    + destruct (fn_dict h r !! k); [done|]. rewrite decide_False; [done|]. by intros [_ ?].
  - intros r k v Hv. by rewrite name_dict_init_columns, Hv.
  - intros r k f Hf. by rewrite fn_dict_init_columns, Hf.
Qed.

Lemma construction_frame_witness :
  name_dict Examples.aliased_heap default_exposed_column_names
  = name_dict Examples.aliased_heap0 default_exposed_column_names
  ∧ name_dict Examples.aliased_heap 7%nat !! "b" = Some "a"
  ∧ name_dict Examples.aliased_heap 7%nat !! "price" = None.
Proof.
  destruct (construction_frame Examples.aliased_heap0 "t" ["a"] ["b"] None None (Some 7%nat)
              true) as (Hother & _ & Hkey & Hkept & _).
  split; [|split].
  - apply Hother. discriminate.
  - apply Hkept. vm_compute. reflexivity.
  - unfold Examples.aliased_heap, Examples.aliased_init.
    rewrite (proj1 (Hkey 7%nat "price" ltac:(apply (bool_decide_unpack _); vm_compute;
                                             reflexivity))).
    vm_compute. reflexivity.
Defined.

(** X22: the invariant of a descriptor.  [__init__] leaves a descriptor
    whose row layout is `id`, the writable columns, the read-only
    columns, and whose every column has an exposed name, a read transform
    and a write transform; binding the database keeps this, and so does
    the construction of any further descriptor, whichever dictionaries it
    is given. *)
Theorem constructed_descriptor_stays_filled
    h tbl cols ro rt wt names allow tbl2 cols2 ro2 rt2 wt2 names2 allow2 :
  let e := (Entity_init h tbl cols ro rt wt names allow).1 in
  let h1 := (Entity_init h tbl cols ro rt wt names allow).2 in
  let h2 := (Entity_init h1 tbl2 cols2 ro2 rt2 wt2 names2 allow2).2 in
  layout e ro ∧ layout (bind_db e) ro
  ∧ filled h1 e = true ∧ filled h1 (bind_db e) = true
  ∧ filled h2 e = true ∧ filled h2 (bind_db e) = true.
Proof.
  cbn zeta.
  pose proof (Entity_init_filled h tbl cols ro rt wt names allow) as Hf.
  destruct (Entity_init h tbl cols ro rt wt names allow) as [e h1] eqn:E.
  destruct Hf as [Hf Hfb]. cbn [fst snd].
  assert (Hlay : layout e ro).
  { unfold Entity_init in E. injection E as <- _. reflexivity. }
  split; [done|]. split; [done|]. split; [done|]. split; [done|].
  split; by apply filled_preserved.
Qed.

(** * Further properties of the operations *)

Section MoreOperations.
Context {C : Type} {B : Backend C}.

Local Ltac run :=
  unfold Entity_get, Entity_put, Entity_post, Entity_delete, Entity_list,
         db_cursor, execute, log_statement, backend, lastrowid, raise, lift;
  unfold mbind, mret, M_bind, M_ret; cbn beta iota.

Local Ltac wrap :=
  unfold get_view, put_view, delete_view, post_view, list_view, route_helper,
         try_except, call_view, jsonify, eprint;
  unfold mbind, mret, M_bind, M_ret; cbn beta iota.

(** X1: of a request body, [_convert_to_row] reads the fields named
    after the writable columns and nothing else.  Two bodies that agree
    on those fields, whatever else they carry (an `id`, a read-only
    column, an unknown key), are encoded alike, and [Entity_put] and
    [Entity_post] behave alike on them. *)
Theorem body_fields_beyond_writable_are_ignored h e ro d d' id s :
  filled h e = true ->
  layout e ro ->
  Forall (fun c => dict_get (exposed_name h e c) d = dict_get (exposed_name h e c) d')
         (columns e) ->
  _convert_to_row h e (PDict d) = _convert_to_row h e (PDict d')
  ∧ Entity_put h e (PDict d) id s = Entity_put h e (PDict d') id s
  ∧ Entity_post h e (PDict d) s = Entity_post h e (PDict d') s.
Proof.
  intros Hf Hlay Hagree. pose proof (filled_columns h e ro Hf Hlay) as Hfc.
  assert (Henc : _convert_to_row h e (PDict d) = _convert_to_row h e (PDict d')).
  { unfold _convert_to_row. apply comprehension_ext.
    apply Forall_forall. intros c Hc.
    rewrite !(convert_cell_filled h e _ c (columns e) Hfc Hc).
    rewrite Forall_forall in Hagree. by rewrite (Hagree c Hc). }
  split; [done|]. split.
  - unfold Entity_put. by rewrite Henc.
  - unfold Entity_post. by rewrite Henc.
Qed.

(** X6: a descriptor fresh from [__init__] has no database.  Until one
    is bound, every operation that needs a cursor raises
    [AttributeError] and leaves the world as it was; [Entity_delete]
    still answers [MethodNotAllowed] first when deletion is off. *)
Theorem operations_need_a_bound_db h0 tbl cols ro rt wt names allow h data id w vals s :
  let e := (Entity_init h0 tbl cols ro rt wt names allow).1 in
  Entity_get h e id s = (Raise AttributeError, s)
  ∧ Entity_put h e data id s = (Raise AttributeError, s)
  ∧ Entity_post h e data s = (Raise AttributeError, s)
  ∧ Entity_list h e w vals s = (Raise AttributeError, s)
  ∧ Entity_delete e id s
    = if allow then (Raise AttributeError, s) else (Ok (PExc MethodNotAllowed), s).
Proof.
  cbn zeta. unfold Entity_init. cbn [fst]. run. cbn.
  repeat split. by destruct allow.
Qed.

(** X7: [Entity_put] opens a cursor and encodes the body before it says
    anything to the store.  If encoding raises, that exception leaves
    [Entity_put] and no statement has been sent.  Otherwise exactly one
    statement is sent, `UPDATE <table> SET c1=%s,..,cn=%s WHERE id=%s`
    over the writable columns, bound to the encoded values followed by
    the id, and `None` is returned once the store accepts it. *)
Theorem put_sends_one_update h e data id s c1 :
  db e = Some TheDB ->
  be_cursor (conn s) = (Ok tt, c1) ->
  (∀ x, _convert_to_row h e data = Raise x ->
     Entity_put h e data id s
     = (Raise x, {| conn := c1; statements := statements s; stderr := stderr s |}))
  ∧ (∀ vals, _convert_to_row h e data = Ok vals ->
       let sql := "UPDATE " +:+ table e +:+ " SET "
                  +:+ String.concat "," (map (fun col => col +:+ "=%s") (columns e))
                  +:+ " WHERE id=%s" in
       statements (Entity_put h e data id s).2
       = (statements s ++ [(sql, (vals ++ [PInt id])%list)])%list
       ∧ stderr (Entity_put h e data id s).2 = stderr s
       ∧ ∀ c2, be_execute sql (vals ++ [PInt id])%list c1 = (Ok tt, c2) ->
           (Entity_put h e data id s).1 = Ok PNone
           ∧ conn (Entity_put h e data id s).2 = c2).
Proof.
  intros Hdb Hcur. split.
  - intros x Hx. run. rewrite Hdb, Hcur. cbn. by rewrite Hx.
  - intros vals Hvals sql. run. rewrite Hdb, Hcur. cbn. rewrite Hvals. cbn.
    fold sql. split; [|split].
    + by destruct (be_execute sql _ c1) as [[[]|?] ?].
    + by destruct (be_execute sql _ c1) as [[[]|?] ?].
    + intros c2 Hexe. by rewrite Hexe.
Qed.

(** X8: [Entity_post] is an `INSERT` followed by [Entity_get] on the id
    the store generated.  With the body encoded and the `INSERT`
    accepted, its outcome is that of [Entity_get] on `cur.lastrowid`, run
    in the world the `INSERT` left; if the `INSERT` raises, the exception
    leaves [Entity_post] and no `SELECT` is sent. *)
Theorem post_is_insert_then_get h e data s c1 vals :
  db e = Some TheDB ->
  be_cursor (conn s) = (Ok tt, c1) ->
  _convert_to_row h e data = Ok vals ->
  let sql := "INSERT INTO " +:+ table e +:+ " (" +:+ fields e +:+ ") VALUES("
             +:+ String.concat "," (map (fun _ => "%s") (columns e)) +:+ ")" in
  (∀ c2, be_execute sql vals c1 = (Ok tt, c2) ->
     Entity_post h e data s
     = Entity_get h e (be_lastrowid c2)
         {| conn := c2; statements := (statements s ++ [(sql, vals)])%list;
            stderr := stderr s |})
  ∧ (∀ x c2, be_execute sql vals c1 = (Raise x, c2) ->
       Entity_post h e data s
       = (Raise x, {| conn := c2; statements := (statements s ++ [(sql, vals)])%list;
                      stderr := stderr s |})).
Proof.
  intros Hdb Hcur Hvals sql. split.
  - intros c2 Hexe. unfold Entity_post at 1.
    unfold db_cursor, execute, log_statement, backend, lastrowid, lift.
    unfold mbind, mret, M_bind, M_ret. cbn beta iota.
    rewrite Hdb, Hcur. cbn. rewrite Hvals. cbn. fold sql. by rewrite Hexe.
  - intros x c2 Hexe. run. rewrite Hdb, Hcur. cbn. rewrite Hvals. cbn. fold sql.
    by rewrite Hexe.
Qed.

(** Decoding the rows of a listing. *)
Lemma comprehension_decode_rows h e rows :
  filled h e = true ->
  Forall (fun row => (length (all_columns e) <= length row)%nat) rows ->
  comprehension (_convert_to_dict h e) rows
  = Ok (map (fun row => decode_pairs h e (zip (all_columns e) row) []) rows).
Proof.
  intros Hf. induction 1 as [|row rows Hrow _ IH]; simpl; [done|].
  rewrite (proj1 (proj1 (_convert_to_dict_by_length h e row Hf) Hrow)). simpl. by rewrite IH.
Qed.

Lemma comprehension_decode_short_row h e rows :
  filled h e = true ->
  Exists (fun row => (length row < length (all_columns e))%nat) rows ->
  comprehension (_convert_to_dict h e) rows = Raise IndexError.
Proof.
  intros Hf. induction rows as [|row rows IH]; intros Hex.
  - by apply Exists_nil in Hex.
  - simpl. destruct (le_lt_dec (length (all_columns e)) (length row)) as [Hle|Hlt].
    + rewrite (proj1 (proj1 (_convert_to_dict_by_length h e row Hf) Hle)). simpl.
      apply Exists_cons in Hex as [Hex|Hex]; [lia|]. by rewrite IH.
    + by rewrite (proj2 (_convert_to_dict_by_length h e row Hf) Hlt).
Qed.

(** The result of [Entity_list], by the rows fetched. *)
Lemma Entity_list_result h e w vals s c1 c2 rows c3 :
  filled h e = true ->
  db e = Some TheDB ->
  be_cursor (conn s) = (Ok tt, c1) ->
  be_execute
    ("SELECT " +:+ all_fields e +:+ " FROM " +:+ table e +:+ " "
     +:+ match w with
         | DEFAULT_WHERE => if allow_delete e then "WHERE deleted_at IS NULL" else ""
         | WhereNone => ""
         | WhereExpr expr => "WHERE " +:+ expr
         end) vals c1 = (Ok tt, c2) ->
  be_fetchall c2 = (Ok rows, c3) ->
  (Forall (fun row => (length (all_columns e) <= length row)%nat) rows ->
     (Entity_list h e w vals s).1
     = Ok (PList (map (fun row => PDict (decode_pairs h e (zip (all_columns e) row) []))
                      rows)))
  ∧ (Exists (fun row => (length row < length (all_columns e))%nat) rows ->
     (Entity_list h e w vals s).1 = Raise IndexError).
Proof.
  intros Hf Hdb Hcur Hexe Hrows.
  assert (Hrun : (Entity_list h e w vals s).1
                 = match comprehension (_convert_to_dict h e) rows with
                   | Ok ds => Ok (PList (map PDict ds))
                   | Raise x => Raise x
                   end).
  { run. rewrite Hdb, Hcur. cbn.
    destruct w; [destruct (allow_delete e)| |]; cbn;
      match type of Hexe with
      | be_execute ?q _ _ = _ =>
          match goal with
          | |- context [be_execute ?q' vals c1] => change q' with q
          end
      end;
      rewrite Hexe; cbn; rewrite Hrows; cbn; by destruct (comprehension _ rows). }
  split.
  - intros Hall. rewrite Hrun, comprehension_decode_rows by done. by rewrite map_map.
  - intros Hex. by rewrite Hrun, comprehension_decode_short_row.
Qed.

(** X9: [Entity_list] decodes every row the store returns, in the
    order returned: its result is the list of their records, the empty
    list when there is no row.  A single row shorter than [all_columns]
    makes the whole listing raise [IndexError]. *)
Theorem list_decodes_every_row h e w vals s c1 c2 rows c3 :
  filled h e = true ->
  db e = Some TheDB ->
  be_cursor (conn s) = (Ok tt, c1) ->
  be_execute
    ("SELECT " +:+ all_fields e +:+ " FROM " +:+ table e +:+ " "
     +:+ match w with
         | DEFAULT_WHERE => if allow_delete e then "WHERE deleted_at IS NULL" else ""
         | WhereNone => ""
         | WhereExpr expr => "WHERE " +:+ expr
         end) vals c1 = (Ok tt, c2) ->
  be_fetchall c2 = (Ok rows, c3) ->
  (Forall (fun row => (length (all_columns e) <= length row)%nat) rows ->
     (Entity_list h e w vals s).1
     = Ok (PList (map (fun row => PDict (decode_pairs h e (zip (all_columns e) row) []))
                      rows)))
  ∧ (Exists (fun row => (length row < length (all_columns e))%nat) rows ->
     (Entity_list h e w vals s).1 = Raise IndexError).
Proof. apply Entity_list_result. Qed.
End MoreOperations.

(** * Further properties of the routes *)

Section MoreViews.
Context {C : Type} {B : Backend C}.

Local Ltac run :=
  unfold Entity_get, Entity_put, Entity_post, Entity_delete, Entity_list,
         db_cursor, execute, log_statement, backend, lastrowid, raise, lift;
  unfold mbind, mret, M_bind, M_ret; cbn beta iota.

Local Ltac wrap :=
  unfold get_view, put_view, delete_view, post_view, list_view, route_helper,
         try_except, call_view, jsonify, eprint;
  unfold mbind, mret, M_bind, M_ret; cbn beta iota.

(** The outcome of [route_helper], by the outcome of the wrapped function. *)
Lemma route_helper_outcome {A : Type} json status (f : @view C json A) req (args : A)
    (s : io C) :
  (json = true -> req = PNone ->
     route_helper json status f req args s = (Raise (HTTPAbort 400 "missing json"), s))
  ∧ ((json = true -> req ≠ PNone) ->
     let out := call_view json f req args s in
     let res := route_helper json status f req args s in
     conn res.2 = conn out.2
     ∧ statements res.2 = statements out.2
     ∧ stderr res.2
       = (stderr out.2 ++ match out.1 with
                          | Raise (NotFound _) => []
                          | Raise x => [x]
                          | Ok _ => []
                          end)%list
     ∧ res.1
       = match out.1 with
         | Raise (NotFound _) =>
             Ok {| body := PDict [("status", PStr "not found")]; status_code := 404 |}
         | Raise x => Raise x
         | Ok PNone => Ok {| body := PDict [("status", PStr status)]; status_code := 200 |}
         | Ok v =>
             if serializable v
             then Ok {| body := PDict [("data", v); ("status", PStr status)];
                        status_code := 200 |}
             else Raise TypeError
         end).
Proof.
  split.
  - intros -> ->. reflexivity.
  - intros Hreq. cbn zeta.
    unfold route_helper, try_except, jsonify, eprint.
    unfold mbind, mret, M_bind, M_ret. cbn beta iota.
    destruct json.
    + destruct req; try (by specialize (Hreq eq_refl)); cbn;
        (destruct (f _ args s) as [[v|x] s1]; cbn;
         [ destruct v | destruct x ]; cbn; rewrite ?app_nil_r; try done;
         repeat case_match; unfold raise in *; simplify_eq; cbn; rewrite ?app_nil_r; done).
    + cbn. destruct (f args s) as [[v|x] s1]; cbn;
        [ destruct v | destruct x ]; cbn; rewrite ?app_nil_r; try done;
        repeat case_match; unfold raise in *; simplify_eq; cbn; rewrite ?app_nil_r; done.
Qed.

(** X10: what [route_helper] adds to the function it wraps.  A JSON
    route without a body aborts with 400 "missing json" before the
    function is called, and the world is untouched.  Otherwise the
    wrapper sends nothing to the store itself; [NotFound] becomes the
    404 response and is not printed; any other exception is printed once
    and re-raised as it is; `None` gives `{"status": status}` and any
    other value `{"data": value, "status": status}`, both with code 200,
    unless the value is not JSON, in which case [jsonify] raises. *)
Theorem route_helper_contract {A : Type} json status (f : @view C json A) req (args : A)
    (s : io C) :
  (json = true -> req = PNone ->
     route_helper json status f req args s = (Raise (HTTPAbort 400 "missing json"), s))
  ∧ ((json = true -> req ≠ PNone) ->
     let out := call_view json f req args s in
     let res := route_helper json status f req args s in
     conn res.2 = conn out.2
     ∧ statements res.2 = statements out.2
     ∧ stderr res.2
       = (stderr out.2 ++ match out.1 with
                          | Raise (NotFound _) => []
                          | Raise x => [x]
                          | Ok _ => []
                          end)%list
     ∧ res.1
       = match out.1 with
         | Raise (NotFound _) =>
             Ok {| body := PDict [("status", PStr "not found")]; status_code := 404 |}
         | Raise x => Raise x
         | Ok PNone => Ok {| body := PDict [("status", PStr status)]; status_code := 200 |}
         | Ok v =>
             if serializable v
             then Ok {| body := PDict [("data", v); ("status", PStr status)];
                        status_code := 200 |}
             else Raise TypeError
         end).
Proof. apply route_helper_outcome. Qed.

(** X11: the two answers of the `GET <id>` route.  When the store has
    no row for the id, the answer is 404 with `{"status": "not found"}`
    and nothing is printed; when it has one, the answer is 200 with
    `{"data": record, "status": "ok"}`, the record being the decoded
    row. *)
Theorem get_view_envelope h e req id s c1 c2 :
  db e = Some TheDB ->
  be_cursor (conn s) = (Ok tt, c1) ->
  be_execute ("SELECT " +:+ all_fields e +:+ " FROM " +:+ table e +:+ " WHERE id=%s")
             [PInt id] c1 = (Ok tt, c2) ->
  (∀ c3, be_fetchone c2 = (Ok None, c3) ->
     (get_view h e req id s).1
     = Ok {| body := PDict [("status", PStr "not found")]; status_code := 404 |}
     ∧ stderr (get_view h e req id s).2 = stderr s)
  ∧ (∀ c3 row d, be_fetchone c2 = (Ok (Some row), c3) ->
       _convert_to_dict h e row = Ok d ->
       serializable (PDict d) = true ->
       (get_view h e req id s).1
       = Ok {| body := PDict [("data", PDict d); ("status", PStr "ok")];
               status_code := 200 |}).
Proof.
  intros Hdb Hcur Hexe. split.
  - intros c3 Hrow. wrap. run. rewrite Hdb, Hcur. cbn. rewrite Hexe. cbn.
    by rewrite Hrow.
  - intros c3 row d Hrow Hd Hser. wrap. run. rewrite Hdb, Hcur. cbn. rewrite Hexe. cbn.
    rewrite Hrow. cbn. rewrite Hd. cbn. cbn in Hser. by rewrite Hser.
Qed.

(** X12: the `GET` route of the collection answers 200 with
    `{"data": [record, ...], "status": "ok"}`, one record per row in the
    order of the store, and with `"data": []` when there is no row. *)
Theorem list_view_envelope h e req s c1 c2 rows c3 :
  filled h e = true ->
  db e = Some TheDB ->
  be_cursor (conn s) = (Ok tt, c1) ->
  be_execute ("SELECT " +:+ all_fields e +:+ " FROM " +:+ table e +:+ " "
              +:+ (if allow_delete e then "WHERE deleted_at IS NULL" else ""))
             [] c1 = (Ok tt, c2) ->
  be_fetchall c2 = (Ok rows, c3) ->
  Forall (fun row => (length (all_columns e) <= length row)%nat) rows ->
  let records := map (fun row => PDict (decode_pairs h e (zip (all_columns e) row) [])) rows in
  forallb serializable records = true ->
  (list_view h e req tt s).1
  = Ok {| body := PDict [("data", PList records); ("status", PStr "ok")];
          status_code := 200 |}.
Proof.
  intros Hf Hdb Hcur Hexe Hrows Hlen records Hser.
  pose proof (proj1 (Entity_list_result h e DEFAULT_WHERE [] s c1 c2 rows c3
                       Hf Hdb Hcur Hexe Hrows) Hlen) as Hlist.
  fold records in Hlist.
  destruct (route_helper_outcome false "ok" (fun _ : unit => Entity_list h e DEFAULT_WHERE [])
              req tt s) as [_ Hwrap].
  destruct Hwrap as (_ & _ & _ & Hres); [done|].
  unfold list_view. rewrite Hres. cbn [call_view]. rewrite Hlist.
  cbn [serializable]. by rewrite Hser.
Qed.
(** X13: the `POST` route, all the way.  With a body that carries the
    writable fields, an `INSERT` the store accepts and the new row read
    back, the answer is `{"data": record, "status": "created"}` with code
    200, the record being the row of the generated id as [Entity_get]
    decodes it; two statements have been sent, the `INSERT` and the
    `SELECT` by id. *)
Theorem post_view_created h e data s c1 vals c2 c3 c4 c5 row d :
  db e = Some TheDB ->
  data ≠ PNone ->
  be_cursor (conn s) = (Ok tt, c1) ->
  _convert_to_row h e data = Ok vals ->
  let insert := "INSERT INTO " +:+ table e +:+ " (" +:+ fields e +:+ ") VALUES("
                +:+ String.concat "," (map (fun _ => "%s") (columns e)) +:+ ")" in
  let select := "SELECT " +:+ all_fields e +:+ " FROM " +:+ table e +:+ " WHERE id=%s" in
  be_execute insert vals c1 = (Ok tt, c2) ->
  be_cursor c2 = (Ok tt, c3) ->
  be_execute select [PInt (be_lastrowid c2)] c3 = (Ok tt, c4) ->
  be_fetchone c4 = (Ok (Some row), c5) ->
  _convert_to_dict h e row = Ok d ->
  serializable (PDict d) = true ->
  post_view h e data tt s
  = (Ok {| body := PDict [("data", PDict d); ("status", PStr "created")];
           status_code := 200 |},
     {| conn := c5;
        statements := (statements s
                       ++ [(insert, vals); (select, [PInt (be_lastrowid c2)])])%list;
        stderr := stderr s |}).
Proof.
  intros Hdb Hdata Hcur Hvals insert select Hins Hcur2 Hsel Hrow Hd Hser.
  wrap. run.
  destruct data; try done; rewrite Hdb, Hcur; cbn; rewrite Hvals; cbn;
    fold insert; rewrite Hins; cbn; run; rewrite Hdb; cbn; rewrite Hcur2; cbn;
    fold select; rewrite Hsel; cbn; rewrite Hrow; cbn; rewrite Hd; cbn;
    cbn in Hser; rewrite Hser; cbn; by rewrite <- app_assoc.
Qed.
End MoreViews.

(** ** The route table *)

Lemma string_app_assoc (s1 s2 s3 : string) : (s1 +:+ s2) +:+ s3 = s1 +:+ (s2 +:+ s3).
Proof.
  induction s1 as [|a s1 IH]; [done|].
  change (String a ((s1 +:+ s2) +:+ s3) = String a (s1 +:+ (s2 +:+ s3))). by rewrite IH.
Qed.

Lemma string_app_nil_r (s : string) : s +:+ "" = s.
Proof.
  induction s as [|a s IH]; [done|].
  change (String a (s +:+ "") = String a s). by rewrite IH.
Qed.

Lemma string_app_inj_l (s t1 t2 : string) : s +:+ t1 = s +:+ t2 -> t1 = t2.
Proof.
  induction s as [|a s IH]; [done|].
  change (String a (s +:+ t1) = String a (s +:+ t2) -> t1 = t2).
  intros Heq. injection Heq as Heq. by apply IH.
Qed.

Lemma string_app_eqb_nil (s t : string) : t ≠ "" -> String.eqb (s +:+ t) "" = false.
Proof.
  intros Ht. apply String.eqb_neq. destruct s; [done|]. discriminate.
Qed.

(** X14: the endpoint names that [add_routes] hands to Flask are
    pairwise distinct, whatever the endpoint prefix and whether or not
    the delete route is bound. *)
Theorem route_endpoints_distinct e url endpoint :
  NoDup (map route_endpoint (add_routes e url endpoint)).
Proof.
  assert (Hne : ∀ a b, a ≠ b -> endpoint +:+ a ≠ endpoint +:+ b).
  { intros a b Hab Heq. apply Hab. by apply string_app_inj_l in Heq. }
  unfold add_routes. destruct (allow_delete e); cbn [map app route_endpoint];
    repeat (apply NoDup_cons; split;
            [ rewrite ?elem_of_cons, elem_of_nil;
              intros Hin; repeat destruct Hin as [Hin|Hin]; try done;
              by apply Hne in Hin
            | ]);
    apply NoDup_nil_2.
Qed.

(** X15: the rules that [add_routes] registers.  The routes of the
    collection (post, list) sit at the full path of the endpoint; the
    routes of an item (get, put, delete) sit at that same path followed
    by `/<int:id>`, also when the endpoint is the empty string.  Each
    route answers one method: `GET` for get and list, `PUT`, `DELETE`
    and `POST` for the others.  The delete route is registered exactly
    when [allow_delete] is set; the other four always are. *)
Theorem route_rules_and_methods e url endpoint :
  map bound_to (add_routes e url endpoint)
  = (if allow_delete e then [OpGet; OpPut; OpDelete; OpPost; OpList]
     else [OpGet; OpPut; OpPost; OpList])
  ∧
  Forall (fun r =>
            rule r = match bound_to r with
                     | OpGet | OpPut | OpDelete => full_path url endpoint +:+ "/<int:id>"
                     | OpPost | OpList => full_path url endpoint
                     end
            ∧ methods r = match bound_to r with
                          | OpGet | OpList => ["GET"]
                          | OpPut => ["PUT"]
                          | OpDelete => ["DELETE"]
                          | OpPost => ["POST"]
                          end)
         (add_routes e url endpoint).
Proof.
  assert (Hbase : full_path url (endpoint +:+ "") = full_path url endpoint)
    by (by rewrite string_app_nil_r).
  assert (Hitem : full_path url (endpoint +:+ (if String.eqb endpoint "" then "<int:id>"
                                               else "/<int:id>"))
                  = full_path url endpoint +:+ "/<int:id>").
  { unfold full_path. destruct (String.eqb endpoint "") eqn:E.
    - apply String.eqb_eq in E as ->. cbn [String.eqb].
      change ("" +:+ "<int:id>") with "<int:id>".
      change (String.eqb "<int:id>" "") with false. cbn iota.
      by rewrite !string_app_assoc.
    - rewrite string_app_eqb_nil by done. by rewrite !string_app_assoc. }
  split; [apply add_routes_operations|].
  unfold add_routes. rewrite Hbase, Hitem.
  destruct (allow_delete e); repeat constructor.
Qed.

(** ** The further properties on the reference store *)

Lemma body_fields_witness :
  let sent := [("name", PStr "axe"); ("price", PInt 5); ("id", PInt 99);
               ("created_at", PStr "2017-01-01")] in
  let kept := [("price", PInt 5); ("name", PStr "axe")] in
  @Entity_put _ Examples.product_db Examples.product_heap Examples.product (PDict sent) 1
    (Mock.start Examples.shop)
  = @Entity_put _ Examples.product_db Examples.product_heap Examples.product (PDict kept) 1
      (Mock.start Examples.shop).
Proof.
  cbv zeta.
  destruct (body_fields_beyond_writable_are_ignored (B := Examples.product_db)
              Examples.product_heap Examples.product ["created_at"; "deleted_at"]
              [("name", PStr "axe"); ("price", PInt 5); ("id", PInt 99);
               ("created_at", PStr "2017-01-01")]
              [("price", PInt 5); ("name", PStr "axe")] 1 (Mock.start Examples.shop))
    as (_ & Hput & _).
  - reflexivity.
  - reflexivity.
  - repeat (constructor; [vm_compute; reflexivity|]). constructor.
  - exact Hput.
Defined.

Lemma put_sends_one_update_witness :
  let s := Mock.start Examples.shop in
  @Entity_put _ Examples.product_db Examples.product_heap Examples.product
    (PDict [("name", PStr "axe")]) 1 s
  = (Raise (KeyError "price"), {| conn := Examples.shop; statements := []; stderr := [] |})
  ∧ statements (@Entity_put _ Examples.product_db Examples.product_heap Examples.product
                  (PDict [("name", PStr "axe"); ("price", PInt 5)]) 1 s).2
    = [("UPDATE product SET name=%s,price=%s WHERE id=%s", [PStr "axe"; PInt 5; PInt 1])]
  ∧ (@Entity_put _ Examples.product_db Examples.product_heap Examples.product
       (PDict [("name", PStr "axe"); ("price", PInt 5)]) 1 s).1 = Ok PNone.
Proof.
  assert (Hcur : @be_cursor _ Examples.product_db (conn (Mock.start Examples.shop))
                 = (Ok tt, Examples.shop)) by (vm_compute; reflexivity).
  cbv zeta. split; [|split].
  - rewrite (proj1 (put_sends_one_update (B := Examples.product_db) Examples.product_heap
                      Examples.product (PDict [("name", PStr "axe")]) 1
                      (Mock.start Examples.shop) _ eq_refl Hcur) (KeyError "price"));
      [reflexivity | vm_compute; reflexivity].
  - edestruct (proj2 (put_sends_one_update (B := Examples.product_db) Examples.product_heap
                        Examples.product (PDict [("name", PStr "axe"); ("price", PInt 5)]) 1
                        (Mock.start Examples.shop) _ eq_refl Hcur)) as (Hlog & _ & _);
      [vm_compute; reflexivity|].
    rewrite Hlog. vm_compute. reflexivity.
  - edestruct (proj2 (put_sends_one_update (B := Examples.product_db) Examples.product_heap
                        Examples.product (PDict [("name", PStr "axe"); ("price", PInt 5)]) 1
                        (Mock.start Examples.shop) _ eq_refl Hcur)) as (_ & _ & Hres);
      [vm_compute; reflexivity|].
    edestruct Hres as [Hnone _]; [vm_compute; reflexivity | exact Hnone].
Defined.

Lemma post_is_insert_then_get_witness :
  let s := Mock.start Examples.shop in
  (@Entity_post _ Examples.product_db Examples.product_heap Examples.product
     (PDict [("name", PStr "axe"); ("price", PInt 5)]) s).1
  = Ok (PDict [("id", PInt 3); ("name", PStr "axe"); ("price", PInt 5);
               ("created_at", PNone); ("deleted_at", PNone)]).
Proof.
  assert (Hcur : @be_cursor _ Examples.product_db (conn (Mock.start Examples.shop))
                 = (Ok tt, Examples.shop)) by (vm_compute; reflexivity).
  cbv zeta.
  erewrite (proj1 (post_is_insert_then_get (B := Examples.product_db) Examples.product_heap
                     Examples.product (PDict [("name", PStr "axe"); ("price", PInt 5)])
                     (Mock.start Examples.shop) _ [PStr "axe"; PInt 5] eq_refl Hcur
                     ltac:(vm_compute; reflexivity)));
    [|vm_compute; reflexivity].
  vm_compute. reflexivity.
Defined.

Lemma list_decodes_every_row_witness :
  let s := Mock.start Examples.shop in
  (@Entity_list _ Examples.product_db Examples.product_heap Examples.product WhereNone [] s).1
  = Ok (PList [PDict [("id", PInt 1); ("name", PStr "saw"); ("price", PInt 120);
                      ("created_at", PInt 10); ("deleted_at", PNone)];
               PDict [("id", PInt 2); ("name", PStr "drill"); ("price", PInt 900);
                      ("created_at", PInt 11); ("deleted_at", PInt 50)]])
  ∧ (@Entity_list _ Examples.product_db Examples.product_heap Examples.product WhereNone []
       (Mock.start (Mock.with_rows Examples.shop [[PInt 1; PStr "saw"]]))).1
    = Raise IndexError.
Proof.
  cbv zeta. split.
  - edestruct (list_decodes_every_row (B := Examples.product_db) Examples.product_heap
                 Examples.product WhereNone [] (Mock.start Examples.shop)) as [Hall _];
      [reflexivity | reflexivity | vm_compute; reflexivity | vm_compute; reflexivity
      | vm_compute; reflexivity |].
    rewrite Hall; [vm_compute; reflexivity|].
    repeat (constructor; [vm_compute; lia|]). constructor.
  - edestruct (list_decodes_every_row (B := Examples.product_db) Examples.product_heap
                 Examples.product WhereNone []
                 (Mock.start (Mock.with_rows Examples.shop [[PInt 1; PStr "saw"]])))
      as [_ Hshort];
      [reflexivity | reflexivity | vm_compute; reflexivity | vm_compute; reflexivity
      | vm_compute; reflexivity |].
    apply Hshort. apply Exists_cons_hd. vm_compute. lia.
Defined.

Lemma route_helper_contract_witness :
  @put_view _ Examples.product_db Examples.product_heap Examples.product PNone 1
    (Mock.start Examples.shop)
  = (Raise (HTTPAbort 400 "missing json"), Mock.start Examples.shop)
  ∧ stderr (@post_view _ Examples.product_db Examples.product_heap Examples.product
              (PDict []) tt (Mock.start Examples.shop)).2
    = [KeyError "name"]
  ∧ statements (@get_view _ Examples.product_db Examples.product_heap Examples.product
                  PNone 9 (Mock.start Examples.shop)).2
    = statements (@Entity_get _ Examples.product_db Examples.product_heap Examples.product 9
                    (Mock.start Examples.shop)).2.
Proof.
  split; [|split].
  - apply (proj1 (route_helper_contract true "updated"
                    (@Entity_put _ Examples.product_db Examples.product_heap Examples.product)
                    PNone 1 (Mock.start Examples.shop))); reflexivity.
  - destruct (proj2 (route_helper_contract true "created"
                       (fun data (_ : unit) =>
                          @Entity_post _ Examples.product_db Examples.product_heap
                            Examples.product data)
                       (PDict []) tt (Mock.start Examples.shop)))
      as (_ & _ & Herr & _); [discriminate|].
    unfold post_view. rewrite Herr. vm_compute. reflexivity.
  - destruct (proj2 (route_helper_contract false "ok"
                       (@Entity_get _ Examples.product_db Examples.product_heap
                          Examples.product)
                       PNone 9 (Mock.start Examples.shop)))
      as (_ & Hlog & _); [discriminate|].
    exact Hlog.
Defined.

Lemma get_view_envelope_witness :
  let s := Mock.start Examples.shop in
  (@get_view _ Examples.product_db Examples.product_heap Examples.product PNone 9 s).1
  = Ok {| body := PDict [("status", PStr "not found")]; status_code := 404 |}
  ∧ (@get_view _ Examples.product_db Examples.product_heap Examples.product PNone 1 s).1
    = Ok {| body := PDict [("data", PDict [("id", PInt 1); ("name", PStr "saw");
                                           ("price", PInt 120); ("created_at", PInt 10);
                                           ("deleted_at", PNone)]);
                           ("status", PStr "ok")];
            status_code := 200 |}.
Proof.
  cbv zeta. split.
  - edestruct (get_view_envelope (B := Examples.product_db) Examples.product_heap
                 Examples.product PNone 9 (Mock.start Examples.shop))
      as [Hnone _]; [reflexivity | vm_compute; reflexivity | vm_compute; reflexivity|].
    edestruct Hnone as [Hres _]; [vm_compute; reflexivity | exact Hres].
  - edestruct (get_view_envelope (B := Examples.product_db) Examples.product_heap
                 Examples.product PNone 1 (Mock.start Examples.shop))
      as [_ Hsome]; [reflexivity | vm_compute; reflexivity | vm_compute; reflexivity|].
    erewrite Hsome; cycle 1;
      [vm_compute; reflexivity | vm_compute; reflexivity | vm_compute; reflexivity
      | reflexivity].
Defined.

Lemma list_view_envelope_witness :
  (@list_view _ Examples.product_db Examples.product_heap Examples.product PNone tt
     (Mock.start Examples.shop)).1
  = Ok {| body := PDict [("data", PList [PDict [("id", PInt 1); ("name", PStr "saw");
                                                ("price", PInt 120); ("created_at", PInt 10);
                                                ("deleted_at", PNone)]]);
                         ("status", PStr "ok")];
          status_code := 200 |}
  ∧ (@list_view _ Examples.product_db Examples.product_heap Examples.product PNone tt
       (Mock.start Mock.empty)).1
    = Ok {| body := PDict [("data", PList []); ("status", PStr "ok")]; status_code := 200 |}.
Proof.
  split.
  - erewrite (list_view_envelope (B := Examples.product_db) Examples.product_heap
                Examples.product PNone (Mock.start Examples.shop)); cycle 1;
      [ reflexivity | reflexivity | vm_compute; reflexivity
      | vm_compute; reflexivity | vm_compute; reflexivity
      | repeat (constructor; [vm_compute; lia|]); constructor
      | vm_compute; reflexivity | vm_compute; reflexivity ].
  - erewrite (list_view_envelope (B := Examples.product_db) Examples.product_heap
                Examples.product PNone (Mock.start Mock.empty)); cycle 1;
      [ reflexivity | reflexivity | vm_compute; reflexivity
      | vm_compute; reflexivity | vm_compute; reflexivity | constructor
      | vm_compute; reflexivity | vm_compute; reflexivity ].
Defined.

Lemma post_view_created_witness :
  @post_view _ Examples.product_db Examples.product_heap Examples.product
    (PDict [("name", PStr "axe"); ("price", PInt 5)]) tt (Mock.start Examples.shop)
  = (Ok {| body := PDict [("data", PDict [("id", PInt 3); ("name", PStr "axe");
                                          ("price", PInt 5); ("created_at", PNone);
                                          ("deleted_at", PNone)]);
                          ("status", PStr "created")];
           status_code := 200 |},
     {| conn := {| Mock.rows := [ [PInt 1; PStr "saw"; PInt 120; PInt 10; PNone];
                                  [PInt 2; PStr "drill"; PInt 900; PInt 11; PInt 50];
                                  [PInt 3; PStr "axe"; PInt 5; PNone; PNone] ];
                   Mock.now := 1000; Mock.next_id := 4; Mock.result_set := [];
                   Mock.last_id := 3 |};
        statements := [("INSERT INTO product (name,price) VALUES(%s,%s)",
                        [PStr "axe"; PInt 5]);
                       ("SELECT id,name,price,created_at,deleted_at FROM product WHERE id=%s",
                        [PInt 3])];
        stderr := [] |}).
Proof.
  erewrite (post_view_created (B := Examples.product_db) Examples.product_heap
              Examples.product (PDict [("name", PStr "axe"); ("price", PInt 5)])
              (Mock.start Examples.shop)); cycle 1;
    [ reflexivity | discriminate | vm_compute; reflexivity
    | vm_compute; reflexivity | vm_compute; reflexivity | vm_compute; reflexivity
    | vm_compute; reflexivity | vm_compute; reflexivity | vm_compute; reflexivity
    | vm_compute; reflexivity | vm_compute; reflexivity ].
Defined.


(** * The mail queue *)

Section MailFacts.
Variable QUEUED : string.
Context {W : Type} {Wd : Mail.World W}.

Lemma stored_spec s :
  Mail.stored s = true ->
  Mail.pending s = [] ∧ ∀ i m, Mail.rows s !! i = Some m -> is_Some (Mail.id m).
Proof.
  unfold Mail.stored. intros Hs. apply andb_prop in Hs as [Hp Hr].
  apply bool_decide_eq_true in Hp. split; [done|]. intros i m Hm.
  rewrite forallb_forall in Hr. apply (proj1 (bool_decide_eq_true _)). apply Hr.
  apply list_elem_of_In, list_elem_of_lookup. eauto.
Qed.

(** Writing back an object that came from the table: [add] and
    [commit] have nothing to do, the row is replaced. *)
Lemma commit_add_store s i m m' :
  Mail.stored s = true -> Mail.rows s !! i = Some m -> Mail.id m' = Mail.id m ->
  Mail.commit (Mail.add m' (Mail.store i m' s)) = Mail.store i m' s
  ∧ Mail.stored (Mail.store i m' s) = true.
Proof.
  intros Hs Hm Hid. destruct (stored_spec s Hs) as [Hp Hrows].
  destruct (Hrows i m Hm) as [n Hn]. split.
  - unfold Mail.add. rewrite Hid, Hn. unfold Mail.commit, Mail.store. simpl.
    by rewrite Hp.
  - unfold Mail.stored, Mail.store. simpl. rewrite Hp.
    rewrite bool_decide_eq_true_2 by done. simpl.
    apply forallb_forall. intros x Hx. apply (proj2 (bool_decide_eq_true _)).
    apply list_elem_of_In, list_elem_of_lookup in Hx as [j Hj].
    apply list_lookup_insert_Some in Hj as [(_ & <- & _)|[_ Hj]].
    + rewrite Hid, Hn. by eexists.
    + by eapply Hrows.
Qed.

(** One round of the loop, for an object loaded from row [i]. *)
Lemma dispatch_spec key domain sender to_override i m st :
  Mail.stored (Mail.db_session st) = true ->
  Mail.rows (Mail.db_session st) !! i = Some m ->
  let req := Mail.request_for key domain sender to_override m in
  match Mail.post req (Mail.world st) with
  | (Raise x, _) =>
      (Mail.dispatch key domain sender to_override (i, m) st).1 = Raise x
      ∧ Mail.db_session (Mail.dispatch key domain sender to_override (i, m) st).2
        = Mail.db_session st
      ∧ Mail.posted (Mail.dispatch key domain sender to_override (i, m) st).2
        = (Mail.posted st ++ [(req, Raise x)])%list
  | (Ok a, _) =>
      ∃ m', Mail.outcome m a m'
        ∧ (Mail.dispatch key domain sender to_override (i, m) st).1 = Ok tt
        ∧ Mail.db_session (Mail.dispatch key domain sender to_override (i, m) st).2
          = Mail.store i m' (Mail.db_session st)
        ∧ Mail.posted (Mail.dispatch key domain sender to_override (i, m) st).2
          = (Mail.posted st ++ [(req, Ok a)])%list
  end.
Proof.
  intros Hs Hm. unfold Mail.request_for, Mail.dispatch. cbn [fst snd].
  destruct (Mail.truthy to_override) as [o|]; cbn [default]; cbv zeta;
    (destruct (Mail.post _ (Mail.world st)) as [[a|x] w1]; [|done];
     destruct (Mail.ok a) eqn:Hok;
     [ destruct (Mail.utcnow w1) as [now w2];
       exists (Mail.with_status m "sent" (Some now));
       cbn [fst snd Mail.db_session Mail.posted];
       destruct (commit_add_store _ i m (Mail.with_status m "sent" (Some now)) Hs Hm eq_refl)
         as [-> _];
       split; [unfold Mail.outcome; rewrite Hok; by eexists | done]
     | exists (Mail.with_status m "failed" (Mail.sent_at m));
       cbn [fst snd Mail.db_session Mail.posted];
       destruct (commit_add_store _ i m (Mail.with_status m "failed" (Mail.sent_at m))
                   Hs Hm eq_refl) as [-> _];
       split; [unfold Mail.outcome; by rewrite Hok | done] ]).
Qed.
(** The loop, for objects loaded from distinct rows: the messages are
    gone through in order, up to the first one for which the mail
    service raises. *)
Lemma deliver_trace key domain sender to_override loaded st :
  Mail.stored (Mail.db_session st) = true ->
  NoDup loaded.*1 ->
  Forall (fun im => Mail.rows (Mail.db_session st) !! im.1 = Some im.2) loaded ->
  let out := Mail.deliver key domain sender to_override loaded st in
  let rows' := Mail.rows (Mail.db_session out.2) in
  Mail.stored (Mail.db_session out.2) = true
  ∧ length rows' = length (Mail.rows (Mail.db_session st))
  ∧ (∀ j, j ∉ loaded.*1 -> rows' !! j = Mail.rows (Mail.db_session st) !! j)
  ∧ ∃ done rest answers,
      loaded = (done ++ rest)%list
      ∧ Forall2 (Mail.processed rows') done answers
      ∧ Forall (fun im => rows' !! im.1 = Some im.2) rest
      ∧ match out.1 with
        | Ok _ =>
            rest = []
            ∧ Mail.posted out.2
              = (Mail.posted st
                 ++ zip (Mail.request_for key domain sender to_override <$> done.*2)
                        (Ok <$> answers))%list
        | Raise x =>
            ∃ im rest', rest = im :: rest'
              ∧ Mail.posted out.2
                = (Mail.posted st
                   ++ zip (Mail.request_for key domain sender to_override <$> done.*2)
                          (Ok <$> answers)
                   ++ [(Mail.request_for key domain sender to_override im.2, Raise x)])%list
        end.
Proof.
  revert st. induction loaded as [|[i m] loaded IH]; intros st Hs Hnd Hrows; cbn zeta.
  - simpl. split; [done|]. split; [done|]. split; [done|].
    exists [], [], []. repeat split; try constructor. by rewrite app_nil_r.
  - apply NoDup_cons in Hnd as [Hi Hnd]. apply Forall_cons in Hrows as [Hm Hrows].
    simpl in Hi, Hm. pose proof (dispatch_spec key domain sender to_override i m st Hs Hm)
      as Hd. cbn zeta in Hd.
    cbn [Mail.deliver].
    destruct (Mail.post _ (Mail.world st)) as [[a|x] w1].
    + destruct Hd as (m' & Hout & Hres & Hdb & Hposted).
      destruct (Mail.dispatch key domain sender to_override (i, m) st) as [r st1].
      simpl in Hres, Hdb, Hposted. subst r.
      assert (Hs1 : Mail.stored (Mail.db_session st1) = true).
      { rewrite Hdb. eapply commit_add_store; [done|done|].
        unfold Mail.outcome in Hout. destruct (Mail.ok a); [by destruct Hout as [t ->]|].
        by subst m'. }
      assert (Hrows1 : Forall (fun im => Mail.rows (Mail.db_session st1) !! im.1 = Some im.2)
                              loaded).
      { rewrite Hdb. simpl. apply Forall_forall. intros [j mj] Hin.
        rewrite Forall_forall in Hrows. specialize (Hrows _ Hin). simpl in *.
        rewrite list_lookup_insert_ne; [done|]. intros ->. apply Hi.
        apply list_elem_of_fmap. by exists (j, mj). }
      destruct (IH st1 Hs1 Hnd Hrows1) as (Hs' & Hlen & Hframe & done & rest & answers
                                           & Hsplit & Hdone & Hrest & Hpost).
      cbn zeta in *.
      split; [done|]. split; [by rewrite Hlen, Hdb; simpl; rewrite length_insert|].
      split.
      { intros j Hj. rewrite Hframe by (intros Hin; apply Hj; by right).
        rewrite Hdb. simpl. apply list_lookup_insert_ne. intros ->. apply Hj. by left. }
      exists ((i, m) :: done), rest, (a :: answers).
      split; [by rewrite Hsplit|]. split.
      { constructor; [|done]. exists m'. split; [|done]. simpl.
        rewrite Hframe by done. rewrite Hdb. simpl.
        apply list_lookup_insert_eq. by apply lookup_lt_Some in Hm. }
      split; [done|].
      destruct (Mail.deliver key domain sender to_override loaded st1).1 as [u|x].
      * destruct Hpost as [-> Hpost]. split; [done|].
        rewrite Hpost, Hposted. simpl. by rewrite <- app_assoc.
      * destruct Hpost as (im & rest' & -> & Hpost). exists im, rest'. split; [done|].
        rewrite Hpost, Hposted. simpl. by rewrite <- app_assoc.
    + destruct Hd as (Hres & Hdb & Hposted).
      destruct (Mail.dispatch key domain sender to_override (i, m) st) as [r st1].
      simpl in Hres, Hdb, Hposted. subst r. simpl. rewrite Hdb.
      split; [done|]. split; [done|]. split; [done|].
      exists [], ((i, m) :: loaded), []. split; [done|]. split; [constructor|].
      split; [by constructor|]. exists (i, m), loaded. split; [done|]. by rewrite Hposted.
Qed.

(** The objects a query loads are rows of the table, each at its
    position, all queued, no row twice, and at most [limit] of them. *)
Lemma query_spec s limit :
  Forall (fun im => Mail.rows s !! im.1 = Some im.2 ∧ Mail.status im.2 = QUEUED)
         (Mail.query QUEUED s limit)
  ∧ NoDup (Mail.query QUEUED s limit).*1
  ∧ (length (Mail.query QUEUED s limit) <= limit)%nat.
Proof.
  unfold Mail.query. split; [|split].
  - apply Forall_forall. intros [i m] Hin. apply elem_of_take in Hin as (k & Hk & _).
    apply list_elem_of_lookup_2, list_elem_of_filter in Hk as [Hq Hin].
    apply elem_of_lookup_imap in Hin as (j & y & Heq & Hj). by simplify_eq.
  - apply (sublist_NoDup _ (imap pair (Mail.rows s)).*1).
    + rewrite fmap_imap.
      rewrite (imap_ext _ (fun j _ => j)) by done. rewrite imap_seq_0, list_fmap_id.
      apply NoDup_seq.
    + apply fmap_sublist. etrans; [apply sublist_take | apply sublist_filter].
  - rewrite length_take. lia.
Qed.
Lemma query_rows s limit :
  Forall (fun im => Mail.rows s !! im.1 = Some im.2) (Mail.query QUEUED s limit).
Proof.
  eapply Forall_impl; [apply (proj1 (query_spec s limit))|]. by intros im [? _].
Qed.

(** X16: what [send_messages] leaves alone.  On a session fresh from
    the factory, a run neither adds nor removes a row, and changes none
    but the rows its query loaded; in particular a message that is not
    queued keeps every field, whether the run completes or raises. *)
Theorem send_messages_leaves_other_rows key domain sender to_override limit st :
  Mail.stored (Mail.db_session st) = true ->
  let out := Mail.send_messages QUEUED key domain sender to_override limit st in
  let rows' := Mail.rows (Mail.db_session out.2) in
  Mail.stored (Mail.db_session out.2) = true
  ∧ length rows' = length (Mail.rows (Mail.db_session st))
  ∧ (∀ j, j ∉ (Mail.query QUEUED (Mail.db_session st) limit).*1 ->
       rows' !! j = Mail.rows (Mail.db_session st) !! j)
  ∧ (∀ j m, Mail.rows (Mail.db_session st) !! j = Some m -> Mail.status m ≠ QUEUED ->
       rows' !! j = Some m).
Proof.
  intros Hs. cbn zeta. unfold Mail.send_messages.
  destruct (query_spec (Mail.db_session st) limit) as (Hq & Hnd & _).
  destruct (deliver_trace key domain sender to_override _ st Hs Hnd
              (query_rows _ _)) as (Hs' & Hlen & Hframe & _).
  cbn zeta in *. split; [done|]. split; [done|]. split; [done|].
  intros j m Hj Hm. rewrite Hframe; [done|].
  intros Hin. apply list_elem_of_fmap in Hin as ([j' m'] & -> & Hin).
  rewrite Forall_forall in Hq. destruct (Hq _ Hin) as [Hrow Hst]. simpl in *. congruence.
Qed.

(** X17: a run of [send_messages] that completes.  It has posted one
    request per loaded message, in the order of the query and at most
    [limit] of them: to the configured override if there is one, to the
    recipient otherwise, with the subject and the body of the message.
    Each of these messages is written back as the answer commands:
    `sent` with a time stamp when the answer is ok, `failed` with its
    time stamp untouched when it is not, every other field kept. *)
Theorem send_messages_posts_and_records key domain sender to_override limit st :
  Mail.stored (Mail.db_session st) = true ->
  let out := Mail.send_messages QUEUED key domain sender to_override limit st in
  let loaded := Mail.query QUEUED (Mail.db_session st) limit in
  out.1 = Ok tt ->
  ∃ answers,
    Mail.posted out.2
    = (Mail.posted st
       ++ zip (Mail.request_for key domain sender to_override <$> loaded.*2)
              (Ok <$> answers))%list
    ∧ Forall2 (Mail.processed (Mail.rows (Mail.db_session out.2))) loaded answers
    ∧ (length answers <= limit)%nat.
Proof.
  intros Hs. cbn zeta. unfold Mail.send_messages. intros Hok.
  destruct (query_spec (Mail.db_session st) limit) as (_ & Hnd & Hlim).
  destruct (deliver_trace key domain sender to_override _ st Hs Hnd (query_rows _ _))
    as (_ & _ & _ & done & rest & answers & Hsplit & Hdone & _ & Hpost).
  cbn zeta in *. rewrite Hok in Hpost. destruct Hpost as [-> Hpost].
  rewrite app_nil_r in Hsplit. subst done.
  exists answers. split; [done|]. split; [done|].
  apply Forall2_length in Hdone. lia.
Qed.

(** X18: a run of [send_messages] that the mail service interrupts.
    When `requests.post` raises, the exception leaves [send_messages];
    the messages before the one being sent have been posted and written
    back, the raising request is the last one made, and the message
    being sent and all that follow it are still in the table as they
    were, queued. *)
Theorem send_messages_stops_at_first_error key domain sender to_override limit st x :
  Mail.stored (Mail.db_session st) = true ->
  let out := Mail.send_messages QUEUED key domain sender to_override limit st in
  out.1 = Raise x ->
  ∃ done im rest answers,
    Mail.query QUEUED (Mail.db_session st) limit = (done ++ im :: rest)%list
    ∧ Forall2 (Mail.processed (Mail.rows (Mail.db_session out.2))) done answers
    ∧ Mail.posted out.2
      = (Mail.posted st
         ++ zip (Mail.request_for key domain sender to_override <$> done.*2)
                (Ok <$> answers)
         ++ [(Mail.request_for key domain sender to_override im.2, Raise x)])%list
    ∧ Forall (fun im' => Mail.rows (Mail.db_session out.2) !! im'.1 = Some im'.2
                         ∧ Mail.status im'.2 = QUEUED) (im :: rest).
Proof.
  intros Hs. cbn zeta. unfold Mail.send_messages. intros Hraise.
  destruct (query_spec (Mail.db_session st) limit) as (Hq & Hnd & _).
  destruct (deliver_trace key domain sender to_override _ st Hs Hnd (query_rows _ _))
    as (_ & _ & _ & done & rest & answers & Hsplit & Hdone & Hrest & Hpost).
  cbn zeta in *. rewrite Hraise in Hpost. destruct Hpost as (im & rest' & -> & Hpost).
  exists done, im, rest', answers. split; [done|]. split; [done|]. split; [done|].
  rewrite Hsplit in Hq. apply Forall_app in Hq as [_ Hq].
  apply Forall_forall. intros im' Hin.
  rewrite Forall_forall in Hrest, Hq. split; [by apply Hrest | by apply Hq].
Qed.

(** X19: no message is sent twice.  Provided `Message.QUEUED` is
    neither `sent` nor `failed`, after a run that completes none of the
    messages it posted is loaded by a later query, whatever its limit;
    and when the limit covered every queued message, no queued message
    is left. *)
Theorem send_messages_never_sends_twice key domain sender to_override limit st :
  Mail.stored (Mail.db_session st) = true ->
  QUEUED ≠ "sent" -> QUEUED ≠ "failed" ->
  let out := Mail.send_messages QUEUED key domain sender to_override limit st in
  out.1 = Ok tt ->
  (∀ limit', Forall (fun i => i ∉ (Mail.query QUEUED (Mail.db_session out.2) limit').*1)
                    (Mail.query QUEUED (Mail.db_session st) limit).*1)
  ∧ ((length (filter (fun m => Mail.status m = QUEUED) (Mail.rows (Mail.db_session st)))
      <= limit)%nat ->
     Forall (fun m => Mail.status m ≠ QUEUED) (Mail.rows (Mail.db_session out.2))).
Proof.
  intros Hs Hsent Hfailed. cbn zeta. unfold Mail.send_messages. intros Hok.
  destruct (query_spec (Mail.db_session st) limit) as (Hq & Hnd & _).
  destruct (deliver_trace key domain sender to_override _ st Hs Hnd (query_rows _ _))
    as (_ & Hlen & Hframe & done & rest & answers & Hsplit & Hdone & _ & Hpost).
  cbn zeta in *. rewrite Hok in Hpost. destruct Hpost as [-> _].
  rewrite app_nil_r in Hsplit. subst done.
  set (out := Mail.deliver key domain sender to_override
                (Mail.query QUEUED (Mail.db_session st) limit) st) in *.
  assert (Hgone : ∀ i m, (i, m) ∈ Mail.query QUEUED (Mail.db_session st) limit ->
            ∃ m', Mail.rows (Mail.db_session out.2) !! i = Some m' ∧ Mail.status m' ≠ QUEUED).
  { intros i m Hin. apply list_elem_of_lookup in Hin as [k Hk].
    destruct (Forall2_lookup_l _ _ _ _ _ Hdone Hk) as (a & _ & m' & Hrow & Hout).
    exists m'. split; [done|]. unfold Mail.outcome in Hout. simpl in Hout.
    destruct (Mail.ok a); [destruct Hout as [t ->]|subst m']; simpl; congruence. }
  split.
  - intros limit'. apply Forall_forall. intros i Hi Hin.
    apply list_elem_of_fmap in Hi as ([i' m] & -> & Hi).
    apply list_elem_of_fmap in Hin as ([i'' m''] & Heq & Hin). simpl in Heq. subst i''.
    destruct (Hgone _ _ Hi) as (m' & Hrow & Hst).
    destruct (query_spec (Mail.db_session out.2) limit') as (Hq' & _ & _).
    rewrite Forall_forall in Hq'. destruct (Hq' _ Hin) as [Hrow' Hst']. simpl in *.
    congruence.
  - intros Hall. apply Forall_forall. intros m' Hin Hst.
    apply list_elem_of_lookup in Hin as [j Hj].
    destruct (decide (j ∈ (Mail.query QUEUED (Mail.db_session st) limit).*1)) as [Hsel|Hsel].
    + apply list_elem_of_fmap in Hsel as ([j' m] & -> & Hsel).
      destruct (Hgone _ _ Hsel) as (m'' & Hrow & Hne). simpl in *. congruence.
    + rewrite Hframe in Hj by done. apply Hsel.
      apply list_elem_of_fmap. exists (j, m'). split; [done|].
      unfold Mail.query. rewrite take_ge.
      * apply list_elem_of_filter. split; [done|]. by apply elem_of_lookup_imap_2.
      * etrans; [|exact Hall]. clear.
        assert (Hgen : ∀ (g : nat -> Mail.Message -> nat * Mail.Message) l,
                  (∀ k m, (g k m).2 = m) ->
                  length (filter (fun im : nat * Mail.Message => Mail.status im.2 = QUEUED)
                                 (imap g l))
                  = length (filter (fun m => Mail.status m = QUEUED) l)).
        { intros g l. revert g. induction l as [|m l IH]; intros g Hg; [done|].
          simpl. rewrite !filter_cons.
          destruct (decide (Mail.status (g 0%nat m).2 = QUEUED)) as [H1|H1];
            destruct (decide (Mail.status m = QUEUED)) as [H2|H2];
            rewrite Hg in H1; try done; simpl; rewrite (IH (g ∘ S)); try done;
            intros k m0; apply Hg. }
        by rewrite (Hgen pair).
Qed.

(** X20: nothing to send.  With a limit of zero, or with no queued
    message in the table, [send_messages] returns at once: no request,
    no log line, no change. *)
Theorem send_messages_nothing_queued key domain sender to_override limit st :
  limit = 0%nat ∨ Forall (fun m => Mail.status m ≠ QUEUED) (Mail.rows (Mail.db_session st)) ->
  Mail.send_messages QUEUED key domain sender to_override limit st = (Ok tt, st).
Proof.
  intros Hcase. unfold Mail.send_messages.
  assert (Hq : Mail.query QUEUED (Mail.db_session st) limit = []); [|by rewrite Hq].
  unfold Mail.query. destruct Hcase as [->|Hnone]; [done|].
  destruct (take limit _) as [|[i m] l] eqn:E; [done|]. exfalso.
  assert (Hin : (i, m) ∈ take limit
                  (filter (fun im : nat * Mail.Message => Mail.status im.2 = QUEUED)
                          (imap pair (Mail.rows (Mail.db_session st)))))
    by (rewrite E; by left).
  apply elem_of_take in Hin as (k & Hk & _).
  apply list_elem_of_lookup_2, list_elem_of_filter in Hk as [Hq Hin].
  apply elem_of_lookup_imap in Hin as (j & y & [= -> ->] & Hj). simpl in Hq.
  rewrite Forall_forall in Hnone. apply (Hnone y); [|done].
  apply list_elem_of_lookup. eauto.
Qed.
(** A table without a queued message gives an empty query. *)
Lemma filter_queued_nil (l : list Mail.Message) (g : nat -> Mail.Message -> nat * Mail.Message) :
  (∀ k m, (g k m).2 = m) ->
  Forall (fun m => Mail.status m ≠ QUEUED) l ->
  filter (fun im : nat * Mail.Message => Mail.status im.2 = QUEUED) (imap g l) = [].
Proof.
  intros Hg Hl. revert g Hg. induction Hl as [|m l Hm _ IH]; intros g Hg; [done|].
  simpl. rewrite filter_cons_False by (by rewrite Hg). apply IH. intros k m0. apply Hg.
Qed.

(** X21: from [send_message] to [send_messages].  On a table without a
    queued message, the message that [send_message] adds is, once
    committed, the one message that the next run of [send_messages]
    loads: it is posted to the member's address (or to the override),
    with the rendered subject and body, and written back as `sent` or
    `failed` under the id the flush gave it. *)
Theorem queued_by_send_message_is_dispatched {K : Type}
    (render_template : string -> Mail.Member -> K -> result string) tmpl member (kwargs : K)
    s subj bod key domain sender to_override limit (w w1 : W) a :
  Mail.stored s = true ->
  Forall (fun m => Mail.status m ≠ QUEUED) (Mail.rows s) ->
  render_template (Mail.value tmpl +:+ ".subject.html") member kwargs = Ok subj ->
  render_template (Mail.value tmpl +:+ ".body.html") member kwargs = Ok bod ->
  (0 < limit)%nat ->
  let queued := Mail.send_message QUEUED render_template tmpl member kwargs s in
  let st := {| Mail.db_session := Mail.commit queued.2; Mail.world := w;
               Mail.posted := []; Mail.log := [] |} in
  let req := {| Mail.url := "https://api.mailgun.net/v3/" +:+ domain +:+ "/messages";
                Mail.auth := ("api", key);
                Mail.data_from := sender;
                Mail.data_to := default (Mail.email member) (Mail.truthy to_override);
                Mail.data_subject := subj;
                Mail.data_html := bod |} in
  Mail.post req w = (Ok a, w1) ->
  let out := Mail.send_messages QUEUED key domain sender to_override limit st in
  queued.1 = Ok tt
  ∧ out.1 = Ok tt
  ∧ Mail.posted out.2 = [(req, Ok a)]
  ∧ ∃ m', Mail.rows (Mail.db_session out.2) = (Mail.rows s ++ [m'])%list
      ∧ Mail.id m' = Some (Mail.next_id s)
      ∧ Mail.recipient m' = Mail.email member
      ∧ Mail.subject m' = subj ∧ Mail.body m' = bod
      ∧ Mail.status m' = if Mail.ok a then "sent" else "failed".
Proof.
  intros Hs Hnone Hsubj Hbod Hlimit. cbn zeta.
  destruct (stored_spec s Hs) as [Hp Hids].
  unfold Mail.send_message. rewrite Hsubj, Hbod. cbn [fst snd].
  unfold Mail.add. cbn [Mail.id]. unfold Mail.commit.
  cbn [Mail.pending Mail.rows Mail.next_id]. rewrite Hp. cbn [app foldl Mail.flush_one fst snd
    Mail.subject Mail.body Mail.member_id Mail.recipient Mail.status Mail.template
    Mail.sent_at].
  set (m0 := {| Mail.id := Some (Mail.next_id s); Mail.subject := subj; Mail.body := bod;
                Mail.member_id := Mail.m_member_id member;
                Mail.recipient := Mail.email member; Mail.status := QUEUED;
                Mail.template := Mail.value tmpl; Mail.sent_at := None |}).
  set (s1 := {| Mail.rows := (Mail.rows s ++ [m0])%list; Mail.pending := [];
                Mail.next_id := Mail.next_id s + 1 |}).
  set (st := {| Mail.db_session := s1; Mail.world := w; Mail.posted := [];
                Mail.log := [] |}).
  intros Hpost. split; [done|].
  assert (Hs1 : Mail.stored s1 = true).
  { unfold Mail.stored. apply andb_true_intro. split; [by apply bool_decide_eq_true_2|].
    apply forallb_forall. intros x Hx. apply (proj2 (bool_decide_eq_true _)).
    apply list_elem_of_In in Hx. cbn [Mail.rows s1] in Hx.
    apply elem_of_app in Hx as [Hx|Hx].
    - apply list_elem_of_lookup in Hx as [j Hj]. by eapply Hids.
    - apply list_elem_of_singleton in Hx as ->. by eexists. }
  assert (Hrow : Mail.rows (Mail.db_session st) !! length (Mail.rows s) = Some m0).
  { simpl. by rewrite list_lookup_middle. }
  assert (Hq : Mail.query QUEUED s1 limit = [(length (Mail.rows s), m0)]).
  { unfold Mail.query. simpl. rewrite imap_app, filter_app.
    rewrite filter_queued_nil by done. simpl.
    rewrite Nat.add_0_r.
    destruct limit; [lia|].
    change (take (S limit) (filter (fun im : nat * Mail.Message => Mail.status im.2 = QUEUED)
                               [(length (Mail.rows s), m0)]))
      with (take (S limit)
              (if decide (Mail.status m0 = QUEUED) then [(length (Mail.rows s), m0)] else [])).
    rewrite decide_True by reflexivity. by destruct limit. }
  unfold Mail.send_messages. cbn [Mail.db_session st]. rewrite Hq. cbn [Mail.deliver].
  pose proof (dispatch_spec key domain sender to_override _ m0 st Hs1 Hrow) as Hd.
  cbn zeta in Hd. unfold Mail.request_for in Hd. cbn [Mail.recipient Mail.subject Mail.body m0
    Mail.world st] in Hd. rewrite Hpost in Hd.
  destruct Hd as (m' & Hout & Hres & Hdb & Hposted).
  destruct (Mail.dispatch key domain sender to_override (length (Mail.rows s), m0) st)
    as [r st1].
  simpl in Hres, Hdb, Hposted. subst r. cbn [fst snd].
  split; [done|]. split; [done|].
  exists m'. rewrite Hdb. simpl. split.
  { rewrite <- (Nat.add_0_r (length (Mail.rows s))). by rewrite insert_app_r. }
  unfold Mail.outcome in Hout. simpl in Hout.
  destruct (Mail.ok a); [destruct Hout as [t ->]|subst m']; by repeat split.
Qed.
End MailFacts.

(** ** The mail queue on a scripted service *)

Lemma send_messages_leaves_other_rows_witness :
  let out := @Mail.send_messages "queued" _ Mail.scripted_world "key" "mg.example.com"
               "noreply@example.com" None 2 (Mail.start Mail.queue Mail.accept_then_refuse) in
  Mail.rows (Mail.db_session out.2) !! 0%nat
  = Some (Mail.letter 1 "ann@example.com" "Welcome" "sent")
  ∧ Mail.rows (Mail.db_session out.2) !! 3%nat
    = Some (Mail.letter 4 "dan@example.com" "Receipt" "queued").
Proof.
  destruct (send_messages_leaves_other_rows "queued" (Wd := Mail.scripted_world) "key"
              "mg.example.com" "noreply@example.com" None 2
              (Mail.start Mail.queue Mail.accept_then_refuse) eq_refl)
    as (_ & _ & Hframe & Hkept).
  split.
  - apply Hkept; [reflexivity | discriminate].
  - rewrite Hframe; [reflexivity|].
    apply (bool_decide_unpack _). vm_compute. exact I.
Defined.

Lemma send_messages_posts_and_records_witness :
  let st := Mail.start Mail.queue Mail.accept_then_refuse in
  let out := @Mail.send_messages "queued" _ Mail.scripted_world "key" "mg.example.com"
               "noreply@example.com" (Some "test@example.com") 2 st in
  ∃ answers,
    Mail.posted out.2
    = (Mail.posted st
       ++ zip (Mail.request_for "key" "mg.example.com" "noreply@example.com"
                 (Some "test@example.com") <$> (Mail.query "queued" Mail.queue 2).*2)
              (Ok <$> answers))%list
    ∧ Forall2 (Mail.processed (Mail.rows (Mail.db_session out.2)))
              (Mail.query "queued" Mail.queue 2) answers
    ∧ (length answers <= 2)%nat.
Proof.
  apply (send_messages_posts_and_records "queued" (Wd := Mail.scripted_world) "key"
           "mg.example.com" "noreply@example.com" (Some "test@example.com") 2
           (Mail.start Mail.queue Mail.accept_then_refuse)).
  - reflexivity.
  - vm_compute. reflexivity.
Defined.

Lemma send_messages_stops_at_first_error_witness :
  let st := Mail.start Mail.queue Mail.accept_then_down in
  let out := @Mail.send_messages "queued" _ Mail.scripted_world "key" "mg.example.com"
               "noreply@example.com" None 3 st in
  ∃ done im rest answers,
    Mail.query "queued" Mail.queue 3 = (done ++ im :: rest)%list
    ∧ Forall2 (Mail.processed (Mail.rows (Mail.db_session out.2))) done answers
    ∧ Mail.posted out.2
      = (Mail.posted st
         ++ zip (Mail.request_for "key" "mg.example.com" "noreply@example.com" None
                 <$> done.*2) (Ok <$> answers)
         ++ [(Mail.request_for "key" "mg.example.com" "noreply@example.com" None im.2,
              Raise (DatabaseError "unreachable"))])%list
    ∧ Forall (fun im' => Mail.rows (Mail.db_session out.2) !! im'.1 = Some im'.2
                         ∧ Mail.status im'.2 = "queued") (im :: rest).
Proof.
  apply (send_messages_stops_at_first_error "queued" (Wd := Mail.scripted_world) "key"
           "mg.example.com" "noreply@example.com" None 3
           (Mail.start Mail.queue Mail.accept_then_down) (DatabaseError "unreachable")).
  - reflexivity.
  - vm_compute. reflexivity.
Defined.

Lemma send_messages_never_sends_twice_witness :
  let st := Mail.start Mail.queue Mail.accept_then_refuse in
  let out := @Mail.send_messages "queued" _ Mail.scripted_world "key" "mg.example.com"
               "noreply@example.com" None 2 st in
  Forall (fun i => i ∉ (Mail.query "queued" (Mail.db_session out.2) 10).*1)
         (Mail.query "queued" Mail.queue 2).*1.
Proof.
  apply (send_messages_never_sends_twice "queued" (Wd := Mail.scripted_world) "key"
           "mg.example.com" "noreply@example.com" None 2
           (Mail.start Mail.queue Mail.accept_then_refuse)).
  - reflexivity.
  - discriminate.
  - discriminate.
  - vm_compute. reflexivity.
Defined.

Lemma send_messages_nothing_queued_witness :
  @Mail.send_messages "queued" _ Mail.scripted_world "key" "mg.example.com"
    "noreply@example.com" None 0 (Mail.start Mail.queue Mail.accept_then_refuse)
  = (Ok tt, Mail.start Mail.queue Mail.accept_then_refuse)
  ∧ @Mail.send_messages "archived" _ Mail.scripted_world "key" "mg.example.com"
      "noreply@example.com" None 5 (Mail.start Mail.queue Mail.accept_then_refuse)
    = (Ok tt, Mail.start Mail.queue Mail.accept_then_refuse).
Proof.
  split.
  - apply (send_messages_nothing_queued "queued" (Wd := Mail.scripted_world)). by left.
  - apply (send_messages_nothing_queued "archived" (Wd := Mail.scripted_world)). right.
    repeat constructor; discriminate.
Defined.

Lemma queued_by_send_message_is_dispatched_witness :
  let s := {| Mail.rows := [Mail.letter 1 "ann@example.com" "Welcome" "sent"];
              Mail.pending := []; Mail.next_id := 2 |} in
  let member := {| Mail.m_member_id := 7; Mail.email := "eve@example.com" |} in
  let queued := Mail.send_message "queued" Mail.render {| Mail.value := "receipt" |}
                  member tt s in
  let out := @Mail.send_messages "queued" _ Mail.scripted_world "key" "mg.example.com"
               "noreply@example.com" None 10
               {| Mail.db_session := Mail.commit queued.2;
                  Mail.world := Mail.accept_then_refuse;
                  Mail.posted := []; Mail.log := [] |} in
  Mail.posted out.2
  = [({| Mail.url := "https://api.mailgun.net/v3/mg.example.com/messages";
         Mail.auth := ("api", "key");
         Mail.data_from := "noreply@example.com";
         Mail.data_to := "eve@example.com";
         Mail.data_subject := "receipt.subject.html for eve@example.com";
         Mail.data_html := "receipt.body.html for eve@example.com" |},
      Ok {| Mail.ok := true; Mail.content := "" |})].
Proof.
  cbv zeta.
  edestruct (queued_by_send_message_is_dispatched "queued" (Wd := Mail.scripted_world)
               Mail.render {| Mail.value := "receipt" |}
               {| Mail.m_member_id := 7; Mail.email := "eve@example.com" |} tt
               {| Mail.rows := [Mail.letter 1 "ann@example.com" "Welcome" "sent"];
                  Mail.pending := []; Mail.next_id := 2 |}
               "receipt.subject.html for eve@example.com"
               "receipt.body.html for eve@example.com"
               "key" "mg.example.com" "noreply@example.com" None 10
               Mail.accept_then_refuse)
    as (_ & _ & Hposted & _).
  - reflexivity.
  - repeat constructor; discriminate.
  - reflexivity.
  - reflexivity.
  - lia.
  - vm_compute. reflexivity.
  - exact Hposted.
Defined.
